(** * Replay-buffer reconstruction pipeline of [rl_zoo3/debug2.py]

    A shallow embedding of the part of [debug()] that rebuilds two replay
    buffers from the pickled trajectory records of one directory
    (lines 208-255 of [src/rl_zoo3/debug2.py]), and the properties of it
    that the specification states.

    The payloads the pipeline moves around (numpy arrays for observations,
    goals and actions, floating-point rewards, info dictionaries) are never
    inspected by the code, so they are type parameters of the development.
    Python integers are [Z]; positions inside the buffers, which are only
    ever produced by counting, are [nat]. *)

From Stdlib Require Import ZArith Lia.
From stdpp Require Import base option list list_numbers strings pretty gmap.

Local Open Scope string_scope.
Local Open Scope Z_scope.
Local Open Scope list_scope.

(** ** Exceptions and outcomes *)

(** The exceptions the modelled statements can raise.  [NotATrajectory] is
    not a Python exception: it marks the boundary of the model, see
    [as_trajectory]. *)
Inductive Exception :=
| FileNotFoundError
| IsADirectoryError
| UnpicklingError
| IndexError
| UnboundLocalError
| NotATrajectory.

(** [IOError] is an alias of [OSError] in Python 3; these are its subclasses
    among the exceptions above. *)
Definition is_IOError (e : Exception) : bool :=
  match e with
  | FileNotFoundError | IsADirectoryError => true
  | _ => false
  end.

Inductive Outcome (A : Type) :=
| Return (a : A)
| Raise (e : Exception).
Arguments Return {A} a.
Arguments Raise {A} e.

Global Instance Outcome_ret : MRet Outcome := fun _ a => Return a.
Global Instance Outcome_bind : MBind Outcome := fun _ _ k m =>
  match m with
  | Return a => k a
  | Raise e => Raise e
  end.

(** ** Strings and paths *)

(** [s.endswith(suffix)] *)
Fixpoint endswith (s suffix : string) : bool :=
  if String.eqb s suffix then true
  else match s with
       | EmptyString => false
       | String _ s' => endswith s' suffix
       end.

(** [os.path.join(d, f)] for a [d] without trailing separator and a relative
    [f], which is all that [os.listdir] hands out. *)
Definition path_join (d f : string) : string := d +:+ "/" +:+ f.

(** The remainder of [s] after the prefix [p], when [s] starts with [p]. *)
Fixpoint strip_prefix (p s : string) : option string :=
  match p, s with
  | EmptyString, _ => Some s
  | String a p', String b s' => if Ascii.eqb a b then strip_prefix p' s' else None
  | String _ _, EmptyString => None
  end.

(** The three path literals of [debug()] (lines 210, 249 and 253). *)
Definition directory_path : string :=
  "/home/deniz.seven/Desktop/Thesis_Documents/agent_recordings/Stage3_v4".
Definition her_save_path : string :=
  "/home/deniz.seven/Desktop/Thesis_Documents/agent_recordings/Stage3_v4/replay_buffer_40.pkl".
Definition plain_save_path : string :=
  "/home/deniz.seven/Desktop/Thesis_Documents/agent_recordings/Stage3_v4/plain_replay_buffer_40.pkl".

(** The name a path has inside [directory_path], when it lies directly in it. *)
Definition resolve (path : string) : option string :=
  strip_prefix (directory_path +:+ "/") path.

(** ** Sequences *)

(** [seq[i]] on a Python list or numpy array: negative indices count from
    the end, anything out of range raises [IndexError]. *)
Definition getitem {A} (l : list A) (i : Z) : Outcome A :=
  let j := if i <? 0 then Z.of_nat (length l) + i else i in
  if j <? 0 then Raise IndexError
  else match l !! Z.to_nat j with
       | Some x => Return x
       | None => Raise IndexError
       end.

(** [range(n)] *)
Definition range (n : Z) : list Z := seqZ 0 n.

(** ** The replay buffers

    [HerReplayBuffer] and [ReplayBuffer] are classes of stable_baselines3;
    their code is not part of this repository. *)

(** Modelled from the spec: the replay buffer classes
    ([stable_baselines3.her.her_replay_buffer.HerReplayBuffer] and
    [stable_baselines3.common.buffers.ReplayBuffer]) are missing from the
    sources.  Section 3 of the specification describes each as a
    "fixed-capacity circular store of Transitions" that "tracks current write
    position and total inserted count" and "drops the oldest entry once
    capacity is exceeded (ring overwrite)"; section 4.2 has them
    pre-allocated and empty at construction. *)
Record RingBuffer (T : Type) := {
  buffer_size : nat;
  slots : list (option T);
  cursor : nat;
  total_inserted : nat
}.
Arguments buffer_size {T} _.
Arguments slots {T} _.
Arguments cursor {T} _.
Arguments total_inserted {T} _.

(** Modelled from the spec: construction of an empty buffer of the given
    capacity (section 4.2: "both empty, ... both sized for capacity
    entries"). *)
Definition new_buffer {T} (capacity : nat) : RingBuffer T :=
  {| buffer_size := capacity;
     slots := replicate capacity None;
     cursor := 0;
     total_inserted := 0 |}.

(** Modelled from the spec: the insert call [buffer.add(...)] (section 3:
    write at the current position, advance it circularly, count the
    insert). *)
Definition add {T} (b : RingBuffer T) (t : T) : RingBuffer T :=
  {| buffer_size := buffer_size b;
     slots := <[cursor b := Some t]> (slots b);
     cursor := (S (cursor b) `mod` buffer_size b)%nat;
     total_inserted := S (total_inserted b) |}.

(** Modelled from the spec: the transitions a buffer retains, oldest first
    (reading the ring from the write position round to the slot before
    it). *)
Definition contents {T} (b : RingBuffer T) : list T :=
  omap (fun k => mjoin (slots b !! ((cursor b + k) `mod` buffer_size b)%nat))
       (seq 0 (buffer_size b)).

(** A buffer of [U] that holds, slot by slot, the image under [f] of what a
    buffer of [T] holds, with the same capacity, cursor and insert count. *)
Definition mirrors {T U} (f : T -> U) (b : RingBuffer T) (b' : RingBuffer U) : Prop :=
  buffer_size b' = buffer_size b /\
  cursor b' = cursor b /\
  total_inserted b' = total_inserted b /\
  slots b' = fmap (M:=list) (fmap (M:=option) f) (slots b).

Section Pipeline.

(** The opaque payloads. *)
Context {Obs Goal Act Rew Info : Type}.

(** ** Transitions *)

(** The structured observation handed to [HerReplayBuffer.add]: the dict
    literal of lines 226-230. *)
Record DictObs := {
  observation : Obs;
  achieved_goal : Goal;
  desired_goal : Goal
}.

(** The six arguments of one [replay_buffer.add(...)] call. *)
Record HerTransition := {
  her_obs : DictObs;
  her_next_obs : DictObs;
  her_action : Act;
  her_reward : Rew;
  her_done : bool;
  her_info : Info
}.

(** The six arguments of one [plain_replay_buffer.add(...)] call. *)
Record PlainTransition := {
  plain_obs : Obs;
  plain_next_obs : Obs;
  plain_action : Act;
  plain_reward : Rew;
  plain_done : bool;
  plain_info : Info
}.

(** ** Trajectory records *)

(** [loaded_object.observations] and [loaded_object.next_observations]:
    a dict of three parallel sequences. *)
Record ObsArrays := {
  observation_seq : list Obs;
  achieved_goal_seq : list Goal;
  desired_goal_seq : list Goal
}.

(** The attributes of an unpickled trajectory record that the loop reads. *)
Record Trajectory := {
  pos : Z;
  observations : ObsArrays;
  next_observations : ObsArrays;
  actions : list Act;
  rewards : list Rew;
  dones : list bool;
  infos : list Info
}.

(** ** The directory *)

(** What a pickle file can hold: a trajectory record, or one of the two
    buffers this pipeline dumps. *)
Inductive Pickle :=
| PTrajectory (o : Trajectory)
| PHerReplayBuffer (b : RingBuffer HerTransition)
| PReplayBuffer (b : RingBuffer PlainTransition).

(** A directory entry: a regular file, whose bytes are a pickle or are not
    ([None]), or a sub-directory. *)
Inductive Entry :=
| RegularFile (content : option Pickle)
| SubDirectory.

(** The part of the file system the pipeline touches: [directory_path],
    which is missing ([None]) or holds named entries, listed in the order
    [os.listdir] enumerates them.  Every path the code opens lies directly
    in this directory (the two save paths included). *)
Definition World := option (list (string * Entry)).

Fixpoint dir_lookup (name : string) (entries : list (string * Entry)) : option Entry :=
  match entries with
  | [] => None
  | (n, e) :: rest => if String.eqb n name then Some e else dir_lookup name rest
  end.

(** Creating or truncating the file [name]: an existing entry is replaced in
    place, a new one is listed last. *)
Fixpoint dir_store (name : string) (e : Entry) (entries : list (string * Entry))
  : list (string * Entry) :=
  match entries with
  | [] => [(name, e)]
  | (n, e') :: rest =>
      if String.eqb n name then (n, e) :: rest else (n, e') :: dir_store name e rest
  end.

(** [os.listdir(path)] *)
Definition os_listdir (w : World) (path : string) : Outcome (list string) :=
  if String.eqb path directory_path then
    match w with
    | Some entries => Return (fst <$> entries)
    | None => Raise FileNotFoundError
    end
  else Raise FileNotFoundError.

(** [open(path, 'rb')]: the content of the file, ready to be read. *)
Definition open_rb (w : World) (path : string) : Outcome (option Pickle) :=
  match w, resolve path with
  | Some entries, Some name =>
      match dir_lookup name entries with
      | Some (RegularFile content) => Return content
      | Some SubDirectory => Raise IsADirectoryError
      | None => Raise FileNotFoundError
      end
  | _, _ => Raise FileNotFoundError
  end.

(** [pickle.load(file)] *)
Definition pickle_load (content : option Pickle) : Outcome Pickle :=
  match content with
  | Some p => Return p
  | None => Raise UnpicklingError
  end.

(** [with open(path, 'wb') as f: pickle.dump(obj, f)] *)
Definition dump (w : World) (path : string) (obj : Pickle) : Outcome World :=
  match w, resolve path with
  | Some entries, Some name =>
      match dir_lookup name entries with
      | Some SubDirectory => Raise IsADirectoryError
      | _ => Return (Some (dir_store name (RegularFile (Some obj)) entries))
      end
  | _, _ => Raise FileNotFoundError
  end.

(** The loop treats [loaded_object] as a trajectory record.  What the
    attributes [pos], [observations], ... of a dumped buffer object hold is
    decided by the external buffer classes; the model stops there with
    [NotATrajectory]. *)
Definition as_trajectory (p : Pickle) : Outcome Trajectory :=
  match p with
  | PTrajectory o => Return o
  | _ => Raise NotATrajectory
  end.

(** ** Local state of [debug()] during reconstruction *)

(** A call on one of the two buffers, with its arguments. *)
Inductive Call :=
| HerAdd (t : HerTransition)
| PlainAdd (t : PlainTransition).

(** The two buffers, the counter and what was printed; [calls] is a ghost
    log of the [add] calls in the order they were made. *)
Record State := {
  replay_buffer : RingBuffer HerTransition;
  plain_replay_buffer : RingBuffer PlainTransition;
  counter : Z;
  stdout : list Z;
  calls : list Call
}.

(** Statements: state passing with exceptions; the state reached when an
    exception is raised is kept. *)
Definition M (A : Type) : Type := State -> Outcome A * State.

Definition ret {A} (a : A) : M A := fun s => (Return a, s).

Definition bind {A B} (m : M A) (k : A -> M B) : M B := fun s =>
  match m s with
  | (Return a, s') => k a s'
  | (Raise e, s') => (Raise e, s')
  end.

Definition lift {A} (o : Outcome A) : M A := fun s => (o, s).

Notation "'do' x <- m ; k" := (bind m (fun x => k))
  (at level 10, x name, m at level 100, k at level 200).
Notation "m ;; k" := (bind m (fun _ => k))
  (at level 100, k at level 200, right associativity).

(** [for x in l: body(x)] *)
Fixpoint for_each {A} (body : A -> M unit) (l : list A) : M unit :=
  match l with
  | [] => ret tt
  | x :: l' => body x ;; for_each body l'
  end.

(** [replay_buffer.add(...)] *)
Definition replay_buffer_add (t : HerTransition) : M unit := fun s =>
  (Return tt,
   {| replay_buffer := add (replay_buffer s) t;
      plain_replay_buffer := plain_replay_buffer s;
      counter := counter s;
      stdout := stdout s;
      calls := calls s ++ [HerAdd t] |}).

(** [plain_replay_buffer.add(...)] *)
Definition plain_replay_buffer_add (t : PlainTransition) : M unit := fun s =>
  (Return tt,
   {| replay_buffer := replay_buffer s;
      plain_replay_buffer := add (plain_replay_buffer s) t;
      counter := counter s;
      stdout := stdout s;
      calls := calls s ++ [PlainAdd t] |}).

(** [counter += 1; print(counter)] (lines 220-221) *)
Definition count_and_print : M unit := fun s =>
  (Return tt,
   {| replay_buffer := replay_buffer s;
      plain_replay_buffer := plain_replay_buffer s;
      counter := counter s + 1;
      stdout := stdout s ++ [counter s + 1];
      calls := calls s |}).

(** ** The pipeline *)

(** The arguments of [replay_buffer.add] at index [i] (lines 226-239),
    evaluated left to right. *)
Definition her_arguments (loaded_object : Trajectory) (i : Z) : Outcome HerTransition :=
  o ← getitem (observation_seq (observations loaded_object)) i;
  ag ← getitem (achieved_goal_seq (observations loaded_object)) i;
  dg ← getitem (desired_goal_seq (observations loaded_object)) i;
  o' ← getitem (observation_seq (next_observations loaded_object)) i;
  ag' ← getitem (achieved_goal_seq (next_observations loaded_object)) i;
  dg' ← getitem (desired_goal_seq (next_observations loaded_object)) i;
  a ← getitem (actions loaded_object) i;
  r ← getitem (rewards loaded_object) i;
  d ← getitem (dones loaded_object) i;
  info ← getitem (infos loaded_object) i;
  mret {| her_obs := {| observation := o; achieved_goal := ag; desired_goal := dg |};
          her_next_obs := {| observation := o'; achieved_goal := ag'; desired_goal := dg' |};
          her_action := a; her_reward := r; her_done := d; her_info := info |}.

(** The arguments of [plain_replay_buffer.add] at index [i] (lines 242-247). *)
Definition plain_arguments (loaded_object : Trajectory) (i : Z) : Outcome PlainTransition :=
  o ← getitem (observation_seq (observations loaded_object)) i;
  o' ← getitem (observation_seq (next_observations loaded_object)) i;
  a ← getitem (actions loaded_object) i;
  r ← getitem (rewards loaded_object) i;
  d ← getitem (dones loaded_object) i;
  info ← getitem (infos loaded_object) i;
  mret {| plain_obs := o; plain_next_obs := o';
          plain_action := a; plain_reward := r; plain_done := d; plain_info := info |}.

(** The body of [for i in range(loaded_object.pos)] (lines 225-248). *)
Definition insert_pair (loaded_object : Trajectory) (i : Z) : M unit :=
  do t <- lift (her_arguments loaded_object i);
  replay_buffer_add t ;;
  do t' <- lift (plain_arguments loaded_object i);
  plain_replay_buffer_add t'.

(** The enumeration loop (lines 209-214).  Besides the list [file_paths] it
    leaves the local variable [file_path] behind: unbound ([None]) when no
    name matched, else the path appended last. *)
Definition collect_pkl (filenames : list string) : list string * option string :=
  foldl (fun '(file_paths, file_path) filename =>
           if endswith filename ".pkl"
           then (file_paths ++ [path_join directory_path filename],
                 Some (path_join directory_path filename))
           else (file_paths, file_path))
        ([], None) filenames.

(** Reading a local variable that may be unbound. *)
Definition read_local {A} (v : option A) : Outcome A :=
  match v with
  | Some a => Return a
  | None => Raise UnboundLocalError
  end.

(** The body of [for file in file_paths] (lines 220-248).  The loop variable
    [file] is not read: line 222 opens [file_path]. *)
Definition process_file (w : World) (file_path : option string) (file : string) : M unit :=
  count_and_print ;;
  do path <- lift (read_local file_path);
  do content <- lift (open_rb w path);
  do loaded_object <- lift (pickle_load content);
  do o <- lift (as_trajectory loaded_object);
  for_each (insert_pair o) (range (pos o)).

(** Lines 219-248. *)
Definition reconstruction_loop (w : World) (file_paths : list string)
    (file_path : option string) : M unit :=
  for_each (process_file w file_path) file_paths.

(** The command-line arguments a caller of [debug()] could use to configure
    where data is read and written and how much of it ([-f], [-s], [-n]);
    parsed at lines 24-27, and not read by lines 208-255. *)
Record Args := {
  folder : string;
  save_folder : string;
  n_timesteps : Z
}.

(** Lines 216-218: both constructors get the literal 36090. *)
Definition allocate (args : Args) : State :=
  {| replay_buffer := new_buffer (Z.to_nat 36090);
     plain_replay_buffer := new_buffer (Z.to_nat 36090);
     counter := 0;
     stdout := [];
     calls := [] |}.

(** How a run ends: normally or with an exception, with the local state
    (once the buffers exist) and the directory as the run leaves it. *)
Record Run := {
  outcome : Outcome unit;
  locals : option State;
  world : World
}.

(** Lines 249-255. *)
Definition persist (w : World) (s : State) : Run :=
  match dump w her_save_path (PHerReplayBuffer (replay_buffer s)) with
  | Raise e => {| outcome := Raise e; locals := Some s; world := w |}
  | Return w1 =>
      match dump w1 plain_save_path (PReplayBuffer (plain_replay_buffer s)) with
      | Raise e => {| outcome := Raise e; locals := Some s; world := w1 |}
      | Return w2 => {| outcome := Return tt; locals := Some s; world := w2 |}
      end
  end.

(** Lines 208-255 of [debug()]. *)
Definition debug (args : Args) (w : World) : Run :=
  match os_listdir w directory_path with
  | Raise e => {| outcome := Raise e; locals := None; world := w |}
  | Return filenames =>
      let '(file_paths, file_path) := collect_pkl filenames in
      match reconstruction_loop w file_paths file_path (allocate args) with
      | (Raise e, s) => {| outcome := Raise e; locals := Some s; world := w |}
      | (Return _, s) => persist w s
      end
  end.

(** ** Notions the properties are stated with *)

(** The plain transition that describes the same timestep as a structured
    one: the "observation" components, and the same action, reward, done
    flag and info. *)
Definition project (t : HerTransition) : PlainTransition :=
  {| plain_obs := observation (her_obs t);
     plain_next_obs := observation (her_next_obs t);
     plain_action := her_action t;
     plain_reward := her_reward t;
     plain_done := her_done t;
     plain_info := her_info t |}.

(** The calls that paired inserts of the given timesteps make. *)
Definition paired_calls (ts : list HerTransition) : list Call :=
  t ← ts; [HerAdd t; PlainAdd (project t)].

(** The arguments of the calls made on each buffer, in call order. *)
Definition her_calls (cs : list Call) : list HerTransition :=
  omap (fun c => match c with HerAdd t => Some t | PlainAdd _ => None end) cs.
Definition plain_calls (cs : list Call) : list PlainTransition :=
  omap (fun c => match c with PlainAdd t => Some t | HerAdd _ => None end) cs.

(** A log that stops right after a paired insert (or before the first). *)
Definition after_paired_insert (cs : list Call) : Prop :=
  match last cs with
  | Some (HerAdd _) => False
  | _ => True
  end.

(** The state after one paired insert of [t]. *)
Definition record_pair (s : State) (t : HerTransition) : State :=
  {| replay_buffer := add (replay_buffer s) t;
     plain_replay_buffer := add (plain_replay_buffer s) (project t);
     counter := counter s;
     stdout := stdout s;
     calls := calls s ++ [HerAdd t; PlainAdd (project t)] |}.

(** [s] is [s0] after paired inserts of the timesteps [ts], and nothing else
    done to the buffers. *)
Definition replayed (s0 : State) (ts : list HerTransition) (s : State) : Prop :=
  replay_buffer s = foldl add (replay_buffer s0) ts /\
  plain_replay_buffer s = foldl add (plain_replay_buffer s0) (project <$> ts) /\
  calls s = calls s0 ++ paired_calls ts.

(** The two transitions carry the same action, reward, done flag and info. *)
Definition same_step_values (t : HerTransition) (t' : PlainTransition) : Prop :=
  plain_action t' = her_action t /\
  plain_reward t' = her_reward t /\
  plain_done t' = her_done t /\
  plain_info t' = her_info t.

(** The plain transition's observations are the "observation" components of
    the structured one's. *)
Definition observation_projected (t : HerTransition) (t' : PlainTransition) : Prop :=
  plain_obs t' = observation (her_obs t) /\
  plain_next_obs t' = observation (her_next_obs t).

(** A setting of the run is supplied by the caller when two callers can get
    different values of it. *)
Definition caller_supplied {A} (setting : Args -> A) : Prop :=
  exists args1 args2, setting args1 <> setting args2.

(** The names of the two output files inside [directory_path]. *)
Definition her_save_name : string := "replay_buffer_40.pkl".
Definition plain_save_name : string := "plain_replay_buffer_40.pkl".

(** The first [pos] transitions of a record, when it has that many. *)
Definition recorded_transitions (o : Trajectory) : Outcome (list HerTransition) :=
  mapM (her_arguments o) (range (pos o)).

(** The names [os.listdir] yields that end in ".pkl", in enumeration order. *)
Definition pkl_names (entries : list (string * Entry)) : list string :=
  filter (fun n => Is_true (endswith n ".pkl")) (fst <$> entries).

Definition is_directory (e : Entry) : bool :=
  match e with
  | SubDirectory => true
  | RegularFile _ => false
  end.

(** Two states of the directory with the same names in the same order, each
    name a file in both or a sub-directory in both: they differ at most in
    what the files contain. *)
Definition same_listing (es1 es2 : list (string * Entry)) : Prop :=
  Forall2 (fun x y => x.1 = y.1 /\ is_directory x.2 = is_directory y.2) es1 es2.

(** What a finished run left under a name of the directory. *)
Definition artifact (r : Run) (name : string) : option Entry :=
  entries ← world r; dir_lookup name entries.

(** The buffers a run left in the two output files, if it did. *)
Definition dumped_her (r : Run) : option (RingBuffer HerTransition) :=
  match artifact r her_save_name with
  | Some (RegularFile (Some (PHerReplayBuffer b))) => Some b
  | _ => None
  end.
Definition dumped_plain (r : Run) : option (RingBuffer PlainTransition) :=
  match artifact r plain_save_name with
  | Some (RegularFile (Some (PReplayBuffer b))) => Some b
  | _ => None
  end.

End Pipeline.

(** ** Sample directories

    Records over [nat] payloads: the entry of column [k] at timestep [i] of
    the record tagged [tag] is [tag + 10 * i + k]. *)

Definition sample_record (tag len : nat) (valid_count : Z)
  : @Trajectory nat nat nat nat nat :=
  let column := fun k => (fun i => (tag + 10 * i + k)%nat) <$> seq 0 len in
  {| pos := valid_count;
     observations :=
       {| observation_seq := column 1%nat;
          achieved_goal_seq := column 2%nat;
          desired_goal_seq := column 3%nat |};
     next_observations :=
       {| observation_seq := column 4%nat;
          achieved_goal_seq := column 5%nat;
          desired_goal_seq := column 6%nat |};
     actions := column 7%nat;
     rewards := column 8%nat;
     dones := (fun i => Nat.even i) <$> seq 0 len;
     infos := column 9%nat |}.

(** Timestep [i] of [sample_record tag _ _] as a structured transition. *)
Definition sample_transition (tag i : nat) : @HerTransition nat nat nat nat nat :=
  let v := fun k => (tag + 10 * i + k)%nat in
  {| her_obs := {| observation := v 1%nat; achieved_goal := v 2%nat; desired_goal := v 3%nat |};
     her_next_obs := {| observation := v 4%nat; achieved_goal := v 5%nat; desired_goal := v 6%nat |};
     her_action := v 7%nat;
     her_reward := v 8%nat;
     her_done := Nat.even i;
     her_info := v 9%nat |}.

Definition pickled (o : @Trajectory nat nat nat nat nat) : @Entry nat nat nat nat nat :=
  RegularFile (Some (PTrajectory o)).

Definition default_args : Args :=
  {| folder := "rl-trained-agents";
     save_folder := "/home/deniz.seven/Desktop/Thesis_Documents/replay_buffer";
     n_timesteps := 1000 |}.

Definition other_args : Args :=
  {| folder := "logs"; save_folder := "/tmp/out"; n_timesteps := 2 |}.

(** Two records, of one and of two valid transitions, and a file that is not
    a record. *)
Definition two_records : list (string * @Entry nat nat nat nat nat) :=
  [("a.pkl", pickled (sample_record 1000 1 1));
   ("notes.txt", RegularFile None);
   ("b.pkl", pickled (sample_record 2000 2 2))].

(** The same listing with another record under "a.pkl". *)
Definition two_records' : list (string * @Entry nat nat nat nat nat) :=
  [("a.pkl", pickled (sample_record 3000 4 3));
   ("notes.txt", RegularFile None);
   ("b.pkl", pickled (sample_record 2000 2 2))].

(** A record that declares ten valid transitions and holds three, listed
    before a sound record. *)
Definition overdeclared_first : list (string * @Entry nat nat nat nat nat) :=
  [("bad.pkl", pickled (sample_record 1000 3 10));
   ("good.pkl", pickled (sample_record 2000 1 1))].

(** The record that declares ten valid transitions and holds three, alone. *)
Definition overdeclared_alone : list (string * @Entry nat nat nat nat nat) :=
  [("bad.pkl", pickled (sample_record 1000 3 10))].

(** One record of three valid transitions. *)
Definition one_record : list (string * @Entry nat nat nat nat nat) :=
  [("episode.pkl", pickled (sample_record 0 3 3))].

(** A directory without any ".pkl" name. *)
Definition no_records : list (string * @Entry nat nat nat nat nat) :=
  [("notes.txt", RegularFile None); ("plots", SubDirectory)].

(** Local state with two empty buffers of capacity two. *)
Definition capacity_two : @State nat nat nat nat nat :=
  {| replay_buffer := new_buffer 2;
     plain_replay_buffer := new_buffer 2;
     counter := 0;
     stdout := [];
     calls := [] |}.

(** The three transitions of the record in [one_record]. *)
Definition one_record_transitions : list (@HerTransition nat nat nat nat nat) :=
  [sample_transition 0 0; sample_transition 0 1; sample_transition 0 2].

(** The local state in which the run on [one_record] ends: the counter
    bumped and printed once, then three paired inserts. *)
Definition after_one_record : @State nat nat nat nat nat :=
  foldl record_pair (count_and_print (allocate default_args)).2 one_record_transitions.

(** The same from [capacity_two]. *)
Definition after_one_record_capacity_two : @State nat nat nat nat nat :=
  foldl record_pair (count_and_print capacity_two).2 one_record_transitions.

(** ** Further notions for the pipeline *)

(** The length of the shortest of the ten sequences the insertion loop
    indexes. *)
Definition shortest {Obs Goal Act Rew Info}
    (o : @Trajectory Obs Goal Act Rew Info) : nat :=
  foldr Nat.min (length (infos o))
    [length (observation_seq (observations o));
     length (achieved_goal_seq (observations o));
     length (desired_goal_seq (observations o));
     length (observation_seq (next_observations o));
     length (achieved_goal_seq (next_observations o));
     length (desired_goal_seq (next_observations o));
     length (actions o);
     length (rewards o);
     length (dones o)].

(** A sound record listed after a sub-directory that has the name of the
    second output file. *)
Definition plain_path_blocked : list (string * @Entry nat nat nat nat nat) :=
  [("plain_replay_buffer_40.pkl", SubDirectory);
   ("z.pkl", pickled (sample_record 0 1 1))].

(** A sound record listed before a ".pkl" file that is no pickle. *)
Definition unreadable_last : list (string * @Entry nat nat nat nat nat) :=
  [("a.pkl", pickled (sample_record 1000 1 1));
   ("z.pkl", RegularFile None)].

(** [two_records] enumerated in another order, with "b.pkl" still last. *)
Definition two_records_reordered : list (string * @Entry nat nat nat nat nat) :=
  [("notes.txt", RegularFile None);
   ("a.pkl", pickled (sample_record 1000 1 1));
   ("b.pkl", pickled (sample_record 2000 2 2))].

(** * The slider harness: class [DebugSimulation] (lines 260-340) *)

(** A value returned, or an exception of type [E] raised. *)
Inductive Result (E A : Type) :=
| Returns (a : A)
| Raises (e : E).
Arguments Returns {E A} a.
Arguments Raises {E A} e.

Module Simulation.

(** The exceptions the methods of the class can raise. *)
Inductive Error :=
| AttributeError
| IndexError.

(** A number literal handed to the engine: an int, or a float literal of
    integral value ([-1.0] and [1.0] are the only float literals of the
    class). *)
Inductive Number :=
| Int (z : Z)
| Float (whole : Z).

(** The physics engine the harness is constructed with ([pybullet] at line
    206) is an external object; the class uses three of its functions.  Each
    takes the engine's state and gives the next one: sliders may move
    between any two calls.  [Value] is what a slider reads (a float), [gt]
    is [>] on two readings. *)
Class PhysicsEngine (Engine Value : Type) := {
  addUserDebugParameter : string -> Number -> Number -> Number -> Engine -> Z * Engine;
  readUserDebugParameter : Z -> Engine -> Value * Engine;
  stepSimulation : Engine -> Engine;
  gt : Value -> Value -> bool
}.

Section Harness.
Context {Engine Value : Type} `{!PhysicsEngine Engine Value}.

(** The attributes of an instance ([_physics_engine], the engine, is
    threaded through the methods). *)
Record DebugSimulation := {
  reset_button : Z;
  latest_reset : Value;
  hand_pose : list Z;
  latest_finger_contacts : list Number;
  hand_orientation : list Z;
  grasp_angles : list Z
}.

(** [l[i]] *)
Definition subscript {A} (l : list A) (i : Z) : Result Error A :=
  match getitem l i with
  | Return x => Returns x
  | Raise _ => Raises IndexError
  end.

(** [for id in ids: values.append(readUserDebugParameter(id))] *)
Definition read_each (ids : list Z) (e : Engine) : list Value * Engine :=
  foldl (fun '(values, e) id =>
           let '(v, e) := readUserDebugParameter id e in (values ++ [v], e))
        ([], e) ids.

(** [__init__] (lines 263-299) *)
Definition __init__ (e : Engine) : DebugSimulation * Engine :=
  let limit := 1 in
  let '(reset_button, e) := addUserDebugParameter "reset" (Int 1) (Int 0) (Int 1) e in
  let '(latest_reset, e) := readUserDebugParameter reset_button e in
  let hand_pose := [] in
  let latest_finger_contacts := replicate 5 (Float 0) in
  let '(posX, e) := addUserDebugParameter "posX" (Int (- limit)) (Int limit) (Int 0) e in
  let hand_pose := hand_pose ++ [posX] in
  let '(posY, e) := addUserDebugParameter "posY" (Int (- limit)) (Int limit) (Int 0) e in
  let hand_pose := hand_pose ++ [posY] in
  let '(posZ, e) := addUserDebugParameter "posZ" (Int (- limit)) (Int limit) (Int 0) e in
  let hand_pose := hand_pose ++ [posZ] in
  let hand_orientation := [] in
  let '(roll, e) := addUserDebugParameter "roll" (Int (- limit)) (Int limit) (Int 0) e in
  let hand_orientation := hand_orientation ++ [roll] in
  let '(pitch, e) := addUserDebugParameter "pitch" (Int (- limit)) (Int limit) (Int 0) e in
  let hand_orientation := hand_orientation ++ [pitch] in
  let '(yaw, e) := addUserDebugParameter "yaw" (Int (- limit)) (Int limit) (Int 0) e in
  let hand_orientation := hand_orientation ++ [yaw] in
  let '(grasp_angles, e) :=
    foldl (fun '(grasp_angles, e) i =>
             let '(id, e) :=
               addUserDebugParameter ("grasp_angle_" +:+ pretty i)
                 (Float (-1)) (Float 1) (Int 0) e in
             (grasp_angles ++ [id], e))
          ([], e) (range 2) in
  ({| reset_button := reset_button;
      latest_reset := latest_reset;
      hand_pose := hand_pose;
      latest_finger_contacts := latest_finger_contacts;
      hand_orientation := hand_orientation;
      grasp_angles := grasp_angles |}, e).

(** [get_current_grasp_angles] (lines 302-306); [registered] is
    [self.grasp_angles], which the local list of the method shadows. *)
Definition get_current_grasp_angles (self : DebugSimulation) (e : Engine)
  : Result Error (list Value) * Engine :=
  let registered := grasp_angles self in
  foldl (fun '(acc, e) i =>
           match acc with
           | Raises x => (Raises x, e)
           | Returns grasp_angles =>
               match subscript registered i with
               | Raises x => (Raises x, e)
               | Returns id =>
                   let '(v, e) := readUserDebugParameter id e in
                   (Returns (grasp_angles ++ [v]), e)
               end
           end)
        (Returns [], e) (range (Z.of_nat (length registered))).

(** [self.latest_reset = v] *)
Definition set_latest_reset (self : DebugSimulation) (v : Value) : DebugSimulation :=
  {| reset_button := reset_button self;
     latest_reset := v;
     hand_pose := hand_pose self;
     latest_finger_contacts := latest_finger_contacts self;
     hand_orientation := hand_orientation self;
     grasp_angles := grasp_angles self |}.

(** [step] (lines 316-340): what it returns or raises, the instance and the
    engine afterwards.  The class defines no [reset]: the call at line 325
    raises [AttributeError]. *)
Definition step (self : DebugSimulation) (e : Engine)
  : Result Error (list Value) * DebugSimulation * Engine :=
  let '(pressed, e) := readUserDebugParameter (reset_button self) e in
  if gt pressed (latest_reset self) then
    let '(v, e) := readUserDebugParameter (reset_button self) e in
    (Raises AttributeError, set_latest_reset self v, e)
  else
    let '(target_pose, e) := read_each (hand_pose self) e in
    let '(target_orientation, e) := read_each (hand_orientation self) e in
    let action := [] ++ take 3 target_pose in
    match subscript target_orientation 0 with
    | Raises x => (Raises x, self, e)
    | Returns first_orientation =>
        let action := action ++ [first_orientation] in
        match get_current_grasp_angles self e with
        | (Raises x, e) => (Raises x, self, e)
        | (Returns angles, e) => (Returns (action ++ angles), self, e)
        end
    end.

(** [simulate] (lines 308-314), cut off after [fuel] iterations of its
    [while True]: the exception that ended it, or [None] while it is still
    looping.  ([time.sleep] only passes time.) *)
Fixpoint simulate (fuel : nat) (self : DebugSimulation) (e : Engine)
  : option Error * DebugSimulation * Engine :=
  match fuel with
  | O => (None, self, e)
  | S fuel' =>
      match step self e with
      | (Raises x, self, e) => (Some x, self, e)
      | (Returns _, self, e) => simulate fuel' self (stepSimulation e)
      end
  end.

End Harness.

(** A board of sliders as a list of their values, the id of a slider being
    its position; a new slider shows its start value. *)
Definition number_value (n : Number) : Z :=
  match n with
  | Int z => z
  | Float whole => whole
  end.

Global Instance slider_board : PhysicsEngine (list Z) Z := {
  addUserDebugParameter _ _ _ start board :=
    (Z.of_nat (length board), board ++ [number_value start]);
  readUserDebugParameter id board := (default 0 (board !! Z.to_nat id), board);
  stepSimulation board := board;
  gt := Z.gtb
}.

(** The harness built on an empty board, and two states of the board the
    user may have brought about since: the reset slider as it was, and
    pushed to 3. *)
Definition sample_harness : DebugSimulation := (__init__ ([] : list Z)).1.
Definition quiet_board : list Z := [1; 5; 6; 7; 8; 9; 10; 11; 12].
Definition pressed_board : list Z := [3; 5; 6; 7; 8; 9; 10; 11; 12].

End Simulation.

(** * Locating the model: lines 84-126 of [debug()] *)

Module Loading.

(** The exceptions of the block, as its [except] clause sees them: an
    instance of [AssertionError], an instance of [ValueError], or any other
    exception. *)
Inductive Error :=
| AssertionError
| ValueError
| OtherError (name : string).

(** [except (AssertionError, ValueError)] *)
Definition caught (x : Error) : bool :=
  match x with
  | AssertionError | ValueError => true
  | OtherError _ => false
  end.

(** The arguments of [get_model_path] (lines 89-97 and 116-124). *)
Record Query := {
  exp_id : Z;
  folder : string;
  algo : string;
  env_name : string;
  load_best : bool;
  load_checkpoint : option Z;
  load_last_checkpoint : bool
}.

(** The keyword arguments of [download_from_hub] (lines 106-114). *)
Record Download := {
  download_algo : string;
  download_env_name : string;
  download_exp_id : Z;
  download_folder : string;
  organization : string;
  repo_name : option string;
  force : bool
}.

(** [needle in hay] on two strings. *)
Fixpoint contains (needle hay : string) : bool :=
  if String.prefix needle hay then true
  else match hay with
       | EmptyString => false
       | String _ hay' => contains needle hay'
       end.

Section Locate.

(** [get_model_path] and [download_from_hub] belong to modules of the
    package that are not among the sources ([rl_zoo3.utils],
    [rl_zoo3.load_from_hub]); they are parameters here, acting on a state
    [W] of the disk and the hub. *)
Context {W : Type}.
Variable get_model_path : Query -> W -> Result Error (string * string * string) * W.
Variable download_from_hub : Download -> W -> Result Error unit * W.

(** The second half of lines 88-126: unpacking the triple and printing the
    path. *)
Definition loading (found : string * string * string) (w : W) (stdout : list string)
  : Result Error (string * string) * W * list string :=
  let '(_, model_path, log_path) := found in
  (Returns (model_path, log_path), w, stdout ++ ["Loading " +:+ model_path]).

(** Lines 88-126: the model path and the log path, or the exception that
    leaves the block; the state and what has been printed. *)
Definition locate_model (q : Query) (w : W) (stdout : list string)
  : Result Error (string * string) * W * list string :=
  match get_model_path q w with
  | (Returns found, w) => loading found w stdout
  | (Raises x, w) =>
      if caught x then
        if negb (contains "rl-trained-agents" (folder q)) then (Raises x, w, stdout)
        else
          let stdout := stdout ++
            ["Pretrained model not found, trying to download it from sb3 Huggingface hub: https://huggingface.co/sb3"] in
          match download_from_hub
                  {| download_algo := algo q;
                     download_env_name := env_name q;
                     download_exp_id := exp_id q;
                     download_folder := folder q;
                     organization := "sb3";
                     repo_name := None;
                     force := false |} w with
          | (Raises y, w) => (Raises y, w, stdout)
          | (Returns _, w) =>
              match get_model_path q w with
              | (Returns found, w) => loading found w stdout
              | (Raises y, w) => (Raises y, w, stdout)
              end
          end
      else (Raises x, w, stdout)
  end.

End Locate.

(** A disk as the list of experiment folders that hold a model, and a hub
    that has every model: a lookup fails with [ValueError] for a folder
    that is not on the disk, a download puts it there. *)
Definition sample_lookup (q : Query) (disk : list string)
  : Result Error (string * string * string) * list string :=
  if bool_decide (folder q ∈ disk)
  then (Returns (algo q, folder q +:+ "/model.zip", folder q), disk)
  else (Raises ValueError, disk).

Definition sample_download (d : Download) (disk : list string)
  : Result Error unit * list string :=
  (Returns tt, disk ++ [download_folder d]).

Definition sample_query (folder : string) : Query :=
  {| exp_id := 0; folder := folder; algo := "ppo"; env_name := "CartPole-v1";
     load_best := false; load_checkpoint := None; load_last_checkpoint := false |}.

End Loading.

(** * Importing the package: [rl_zoo3/__init__.py] *)

Module Package.

(** The exceptions the module body can raise. *)
Inductive Error :=
| FileNotFoundError
| KeyError (key : string).

(** The arguments of one [register] call (lines 42-119); the reward
    threshold [2000.0] is a float literal of integral value. *)
Record EnvSpec := {
  id : string;
  entry_point : string;
  max_episode_steps : Z;
  reward_threshold : Simulation.Number
}.

(** The eleven calls of lines 42-119, in order. *)
Definition registrations : list EnvSpec :=
  (fun '(id, entry_point) =>
     {| id := id; entry_point := entry_point;
        max_episode_steps := 5000;
        reward_threshold := Simulation.Float 2000 |}) <$>
  [("StageTwoTekkenEnv-v1", "simulations.stage_two_tekken_env:StageTwoTekkenEnv");
   ("StageTwoTekkenEnv-v2", "simulations.stage_two_tekken_env_v2:StageTwoTekkenEnv");
   ("StageTwoTekkenEnv-v3", "simulations.stage_two_tekken_env_v3:StageTwoTekkenEnv");
   ("StageTwoTekkenEnv-v4", "simulations.stage_two_tekken_env_v4:StageTwoTekkenEnv");
   ("StageTwoTekkenEnv-v5", "simulations.stage_two_tekken_env_v5:StageTwoTekkenEnv");
   ("StageTwoRobotiqEnv-v1", "simulations.stage_two_robotiq_env:StageTwoRobotiqEnv");
   ("StageThreeTekkenEnv-v1", "simulations.stage_three_tekken_env:StageThreeTekkenEnv");
   ("StageThreeTekkenEnv-v2", "simulations.stage_three_tekken_env_v2:StageThreeTekkenEnv");
   ("StageThreeTekkenEnv-v3", "simulations.stage_three_tekken_env_v3:StageThreeTekkenEnv");
   ("StageThreeTekkenEnv-v4", "simulations.stage_three_tekken_env_v4:StageThreeTekkenEnv");
   ("StageThreeTekkenEnv-v5", "simulations.stage_three_tekken_env_v5:StageThreeTekkenEnv")].

Section ModuleBody.

(** [str.strip] and [gym.envs.registration.register] are not repository
    code; [Registry] is the state of the gym registry. *)
Context {Registry : Type}.
Variable strip : string -> string.
Variable gym_register : EnvSpec -> Registry -> Registry.

(** What the module body reads and changes in the interpreter:
    [__version__] (unbound before line 23), [sys.path] and the registry. *)
Record Interpreter := {
  version : option string;
  sys_path : list string;
  registry : Registry
}.

(** [register] (lines 37-38) *)
Definition register (spec : EnvSpec) (py : Interpreter) : Interpreter :=
  {| version := version py;
     sys_path := sys_path py;
     registry := gym_register spec (registry py) |}.

(** The module body from line 20 on, given the content of [version.txt]
    next to the module ([None] when there is no such file) and
    [os.environ]; the imports of lines 6-18 and 35 are taken to succeed. *)
Definition import_package (version_txt : option string)
    (environ : gmap string string) (py : Interpreter)
  : Result Error unit * Interpreter :=
  match version_txt with
  | None => (Raises FileNotFoundError, py)
  | Some content =>
      let py := {| version := Some (strip content);
                   sys_path := sys_path py;
                   registry := registry py |} in
      match environ !! "TEKKEN_PATH" with
      | None => (Raises (KeyError "TEKKEN_PATH"), py)
      | Some tekken_path =>
          let py := {| version := version py;
                       sys_path := sys_path py ++ [tekken_path +:+ "/src"];
                       registry := registry py |} in
          (Returns tt, foldl (fun py spec => register spec py) py registrations)
      end
  end.

End ModuleBody.

(** A registry as the list of the registered ids, latest last. *)
Definition sample_interpreter : @Interpreter (list string) :=
  {| version := None; sys_path := ["/usr/lib/python3"]; registry := ["CartPole-v1"] |}.

Definition sample_register (spec : EnvSpec) (ids : list string) : list string :=
  ids ++ [id spec].

End Package.

(** * The keyword arguments of the environment: lines 147-157 of [debug()] *)

Module EnvKwargs.

(** The exception of the block. *)
Inductive Error :=
| KeyError (key : string).

(** What the block can see of [args.yml] in the log folder: no such file, a
    file without the key "env_kwargs", the key with a null value, or the key
    with a dictionary. *)
Inductive ArgsYml (V : Type) :=
| NoFile
| NoKey
| Null
| Kwargs (d : gmap string V).
Arguments NoFile {V}.
Arguments NoKey {V}.
Arguments Null {V}.
Arguments Kwargs {V} d.

(** Lines 148-157; [command_line] is [args.env_kwargs], [None] when the
    option was not given.  [dict.update] lets the entries of its argument
    win. *)
Definition env_kwargs {V} (args_yml : ArgsYml V) (command_line : option (gmap string V))
  : Result Error (gmap string V) :=
  let env_kwargs : gmap string V := ∅ in
  match
    match args_yml with
    | NoFile => Returns env_kwargs
    | NoKey => Raises (KeyError "env_kwargs")
    | Null => Returns env_kwargs
    | Kwargs d => Returns d
    end
  with
  | Raises x => Raises x
  | Returns env_kwargs =>
      match command_line with
      | Some given => Returns (given ∪ env_kwargs)
      | None => Returns env_kwargs
      end
  end.

(** What the file says for a key, when it says anything. *)
Definition saved {V} (args_yml : ArgsYml V) (key : string) : option V :=
  match args_yml with
  | Kwargs d => d !! key
  | _ => None
  end.

End EnvKwargs.

(** * Properties *)

(** ** The ring buffers *)

Section RingBufferFacts.
Context {T : Type}.
Implicit Types (b : RingBuffer T) (ts : list T).
Local Open Scope nat_scope.

Lemma add_total_inserted b ts :
  total_inserted (foldl add b ts) = total_inserted b + length ts.
Proof.
  revert b. induction ts as [|t ts IH]; intros b; simpl; [lia|].
  rewrite IH. simpl. lia.
Qed.

Lemma add_buffer_size b ts : buffer_size (foldl add b ts) = buffer_size b.
Proof. revert b. induction ts as [|t ts IH]; intros b; simpl; [done|]. by rewrite IH. Qed.

Lemma add_slots_length b ts : length (slots (foldl add b ts)) = length (slots b).
Proof.
  revert b. induction ts as [|t ts IH]; intros b; simpl; [done|].
  rewrite IH. simpl. apply length_insert.
Qed.

Lemma mod_apart (c k n : nat) : k < n -> n < k + c -> k mod c <> n mod c.
Proof.
  intros Hkn Hn Heq.
  assert (c <> 0) as Hc by lia.
  pose proof (Nat.div_mod_eq k c) as Hk.
  pose proof (Nat.div_mod_eq n c) as Hn'.
  rewrite Heq in Hk.
  destruct (Nat.lt_ge_cases (k `div` c) (n `div` c)) as [Hlt|Hle].
  - pose proof (Nat.mul_le_mono_l _ _ c Hlt). lia.
  - pose proof (Nat.mul_le_mono_l _ _ c Hle). lia.
Qed.

(** The ring after the inserts [ts] into an empty buffer of capacity [c]:
    the cursor has gone round [length ts] times modulo [c], each of the last
    [c] inserts sits in the slot of its index modulo [c], and the slots not
    yet reached are empty. *)
Lemma ring_after_inserts (c : nat) ts :
  0 < c ->
  let b := foldl add (new_buffer c) ts in
  cursor b = length ts mod c /\
  (forall k, k < length ts -> length ts <= k + c -> slots b !! (k mod c) = Some (ts !! k)) /\
  (forall j, length ts <= j -> j < c -> slots b !! j = Some None).
Proof.
  intros Hc. induction ts as [|t ts IH] using rev_ind; simpl.
  - split; [by rewrite Nat.Div0.mod_0_l|]. split; [intros; lia|].
    intros j _ Hj. by apply lookup_replicate_2.
  - rewrite foldl_snoc. simpl in IH. destruct IH as (Hcur & Hfull & Hfree).
    set (b := foldl add (new_buffer c) ts) in *.
    assert (buffer_size b = c) as Hsz by (unfold b; by rewrite add_buffer_size).
    assert (length (slots b) = c) as Hlen
      by (unfold b; rewrite add_slots_length; simpl; by rewrite length_replicate).
    rewrite length_app. simpl. rewrite Hsz, Hcur.
    split; [|split].
    + rewrite <- Nat.add_1_r, Nat.Div0.add_mod_idemp_l. done.
    + intros k Hk Hk'. destruct (decide (k = length ts)) as [->|Hne].
      * rewrite list_lookup_insert_eq
          by (rewrite Hlen; by apply Nat.mod_upper_bound, Nat.neq_0_lt_0).
        by rewrite lookup_app_r, Nat.sub_diag by lia.
      * rewrite list_lookup_insert_ne by (apply not_eq_sym, mod_apart; lia).
        rewrite lookup_app_l by lia. apply Hfull; lia.
    + intros j Hj Hj'. rewrite list_lookup_insert_ne.
      * apply Hfree; lia.
      * rewrite Nat.mod_small; lia.
Qed.

Lemma omap_shifted_lookup ts (n m : nat) :
  omap (fun k => ts !! (n + k)) (seq 0 m) = take m (drop n ts).
Proof.
  induction m as [|m IH]; [done|].
  rewrite seq_S, omap_app, IH. simpl.
  destruct (ts !! (n + m)) as [x|] eqn:Hx; simpl.
  - symmetry. erewrite take_S_r; [done|]. by rewrite lookup_drop.
  - rewrite app_nil_r. apply lookup_ge_None in Hx.
    rewrite !take_ge; [done|rewrite length_drop; lia..].
Qed.

(** What a buffer retains after the inserts [ts]: all of them while they
    fit, and the last [c] of them afterwards. *)
Lemma contents_after_inserts (c : nat) ts :
  0 < c ->
  contents (foldl add (new_buffer c) ts) = drop (length ts - c) ts.
Proof.
  intros Hc. destruct (ring_after_inserts c ts Hc) as (Hcur & Hfull & Hfree).
  unfold contents. rewrite add_buffer_size. simpl.
  set (b := foldl add (new_buffer c) ts) in *.
  set (n := length ts) in *.
  replace (seq 0 c)
    with (seq 0 (c - n) ++ (Nat.add (c - n) <$> seq 0 (c - (c - n)))).
  2:{ rewrite fmap_add_seq. replace (c - n + 0) with (0 + (c - n)) by lia.
      rewrite <- seq_app. f_equal. lia. }
  rewrite omap_app.
  rewrite (list_omap_ext _ (fun _ : nat => None) _ (seq 0 (c - n))).
  2:{ apply Forall_Forall2_diag, Forall_forall. intros k Hk.
      apply elem_of_seq in Hk. rewrite Hcur.
      rewrite (Nat.mod_small n c) by lia. rewrite Nat.mod_small by lia.
      rewrite Hfree by lia. done. }
  assert (forall {A} (l : list A), omap (fun _ : A => @None T) l = []) as ->
    by (intros A l; induction l; done).
  simpl.
  rewrite <- (take_ge (drop (n - c) ts) (c - (c - n))) by (rewrite length_drop; lia).
  rewrite <- omap_shifted_lookup.
  apply list_omap_ext, Forall2_fmap_l, Forall_Forall2_diag, Forall_forall.
  intros k Hk. apply elem_of_seq in Hk. simpl. rewrite Hcur.
  replace ((n mod c + (c - n + k)) mod c) with ((n - c + k) mod c).
  - rewrite Hfull by lia. done.
  - rewrite Nat.Div0.add_mod_idemp_l.
    replace (n + (c - n + k)) with (n - c + k + 1 * c) by lia.
    by rewrite Nat.Div0.mod_add.
Qed.

End RingBufferFacts.

Section MirrorFacts.
Context {T U : Type} (f : T -> U).

Lemma mirrors_new_buffer (c : nat) : mirrors f (new_buffer c) (new_buffer c).
Proof. unfold mirrors. simpl. by rewrite fmap_replicate. Qed.

Lemma mirrors_add b b' t : mirrors f b b' -> mirrors f (add b t) (add b' (f t)).
Proof.
  intros (Hsz & Hcur & Htot & Hslots). unfold mirrors. simpl.
  rewrite Hsz, Hcur, Htot, Hslots. by rewrite list_fmap_insert.
Qed.

Lemma mirrors_inserts b b' ts :
  mirrors f b b' -> mirrors f (foldl add b ts) (foldl add b' (f <$> ts)).
Proof.
  revert b b'. induction ts as [|t ts IH]; intros b b' Hm; simpl; [done|].
  by apply IH, mirrors_add.
Qed.

Lemma mirrors_slot b b' (i : nat) :
  mirrors f b b' -> slots b' !! i = fmap (M:=option) (fmap (M:=option) f) (slots b !! i).
Proof. intros (_ & _ & _ & ->). apply list_lookup_fmap. Qed.

End MirrorFacts.

(** ** Paths and the enumeration loop *)

Lemma strip_prefix_app (p s : string) : strip_prefix p (p +:+ s) = Some s.
Proof.
  induction p as [|a p IH]; simpl; [done|].
  by rewrite Ascii.eqb_refl.
Qed.

Lemma resolve_path_join (name : string) :
  resolve (path_join directory_path name) = Some name.
Proof.
  unfold resolve, path_join.
  assert (forall d : string, d +:+ "/" +:+ name = (d +:+ "/") +:+ name) as Hassoc
    by (intros d; induction d as [|a d IH]; simpl; [done|exact (f_equal (String a) IH)]).
  rewrite Hassoc. apply strip_prefix_app.
Qed.

Lemma resolve_her_save_path : resolve her_save_path = Some her_save_name.
Proof. reflexivity. Qed.

Lemma resolve_plain_save_path : resolve plain_save_path = Some plain_save_name.
Proof. reflexivity. Qed.

(** The enumeration loop keeps the ".pkl" names in order, and leaves in
    [file_path] the path of the last of them. *)
Lemma collect_pkl_spec (filenames : list string) :
  let kept := filter (fun n => Is_true (endswith n ".pkl")) filenames in
  collect_pkl filenames =
    (path_join directory_path <$> kept, path_join directory_path <$> last kept).
Proof.
  induction filenames as [|f filenames IH] using rev_ind; [done|].
  simpl in *. unfold collect_pkl in *. rewrite foldl_snoc, IH.
  rewrite filter_app, filter_cons, filter_nil.
  destruct (endswith f ".pkl") eqn:Hf; simpl.
  - by rewrite fmap_app, last_snoc.
  - by rewrite app_nil_r.
Qed.

(** ** The directory *)

Section PipelineFacts.
Context {Obs Goal Act Rew Info : Type}.
Local Abbreviation HerTransition := (@HerTransition Obs Goal Act Rew Info).
Local Abbreviation PlainTransition := (@PlainTransition Obs Act Rew Info).
Local Abbreviation Trajectory := (@Trajectory Obs Goal Act Rew Info).
Local Abbreviation State := (@State Obs Goal Act Rew Info).
Local Abbreviation World := (@World Obs Goal Act Rew Info).
Local Abbreviation Entry := (@Entry Obs Goal Act Rew Info).
Local Abbreviation Call := (@Call Obs Goal Act Rew Info).
Implicit Types (o : Trajectory) (s : State) (w : World) (t : HerTransition).
Implicit Types (ts : list HerTransition) (entries : list (string * Entry)).
Implicit Types (cs : list Call) (e : Exception).

Lemma dir_lookup_listed name entries x :
  dir_lookup name entries = Some x -> name ∈ entries.*1.
Proof.
  induction entries as [|[n y] entries IH]; simpl; [done|].
  destruct (String.eqb n name) eqn:Hn.
  - apply String.eqb_eq in Hn as ->. intros _. apply list_elem_of_here.
  - intros H. apply list_elem_of_further. auto.
Qed.

Lemma dir_lookup_store_eq name x entries :
  dir_lookup name (dir_store name x entries) = Some x.
Proof.
  induction entries as [|[n y] entries IH]; simpl.
  - by rewrite String.eqb_refl.
  - destruct (String.eqb n name) eqn:Hn; simpl; by rewrite Hn.
Qed.

Lemma dir_lookup_store_ne name name' x entries :
  name <> name' ->
  dir_lookup name' (dir_store name x entries) = dir_lookup name' entries.
Proof.
  intros Hne%String.eqb_neq. induction entries as [|[n y] entries IH]; simpl.
  - by rewrite Hne.
  - destruct (String.eqb n name) eqn:Hn; simpl.
    + apply String.eqb_eq in Hn as ->. by rewrite Hne.
    + by rewrite IH.
Qed.

Lemma same_listing_names (es1 es2 : list (string * Entry)) :
  same_listing es1 es2 -> es1.*1 = es2.*1.
Proof. induction 1 as [|[] [] ?? [??]]; simpl in *; [done|]. by f_equal. Qed.

(** Under the same listing a name is absent from both directories, or a file
    in both, or a sub-directory in both. *)
Lemma same_listing_lookup (es1 es2 : list (string * Entry)) name :
  same_listing es1 es2 ->
  option_Forall2 (fun x y => is_directory x = is_directory y)
    (dir_lookup name es1) (dir_lookup name es2).
Proof.
  induction 1 as [|[n1 x1] [n2 x2] ?? [Hn Hd]]; simpl in *; [constructor|].
  subst n2. destruct (String.eqb n1 name); [by constructor|done].
Qed.

(** ** The insertion loop *)

Lemma getitem_raises {A} (l : list A) (i : Z) e :
  getitem l i = Raise e -> e = IndexError.
Proof. unfold getitem. repeat case_match; congruence. Qed.

Ltac step_getitem :=
  match goal with
  | |- context [getitem ?l ?i] =>
      let H := fresh "Hget" in
      destruct (getitem l i) eqn:H; simpl;
      [|try (apply getitem_raises in H; congruence)]
  end.

Lemma her_arguments_raises o (i : Z) e :
  her_arguments o i = Raise e -> e = IndexError.
Proof.
  unfold her_arguments, mbind, mret, Outcome_bind, Outcome_ret.
  repeat step_getitem; congruence.
Qed.

(** Once the arguments of the first call have been read, those of the second
    are the same values: the second call cannot fail. *)
Lemma plain_arguments_project o (i : Z) t :
  her_arguments o i = Return t -> plain_arguments o i = Return (project t).
Proof.
  unfold her_arguments, plain_arguments, mbind, mret, Outcome_bind, Outcome_ret.
  repeat step_getitem; try congruence.
  intros [= <-]. done.
Qed.

Lemma insert_pair_unfold o (i : Z) s :
  insert_pair o i s =
    match her_arguments o i with
    | Return t => (Return tt, record_pair s t)
    | Raise e => (Raise e, s)
    end.
Proof.
  unfold insert_pair, bind, lift.
  destruct (her_arguments o i) as [t|e] eqn:Ht; [|done].
  simpl. rewrite (plain_arguments_project _ _ _ Ht).
  unfold plain_replay_buffer_add, record_pair. simpl. by rewrite <- app_assoc.
Qed.

Lemma record_pairs_replayed s ts : replayed s ts (foldl record_pair s ts).
Proof.
  revert s. induction ts as [|t ts IH]; intros s.
  - unfold replayed. simpl. by rewrite app_nil_r.
  - simpl. destruct (IH (record_pair s t)) as (H1 & H2 & H3).
    unfold replayed. rewrite H1, H2, H3. simpl. by rewrite <- app_assoc.
Qed.

Lemma record_pairs_counter s ts :
  counter (foldl record_pair s ts) = counter s /\
  stdout (foldl record_pair s ts) = stdout s.
Proof.
  revert s. induction ts as [|t ts IH]; intros s; [done|].
  simpl. destruct (IH (record_pair s t)) as [-> ->]. done.
Qed.

Lemma replayed_refl s : replayed s [] s.
Proof. unfold replayed. simpl. by rewrite app_nil_r. Qed.

Lemma replayed_trans s0 s1 s2 ts ts' :
  replayed s0 ts s1 -> replayed s1 ts' s2 -> replayed s0 (ts ++ ts') s2.
Proof.
  intros (H1 & H2 & H3) (H1' & H2' & H3'). unfold replayed.
  rewrite H1', H2', H3', H1, H2, H3, fmap_app, !foldl_app.
  unfold paired_calls. by rewrite bind_app, app_assoc.
Qed.

(** The insertion loop over any list of indices: it stops at the first
    index it cannot read, with [IndexError], having inserted the pairs
    before it. *)
Lemma insertion_loop_any o (l : list Z) s res s' :
  for_each (insert_pair o) l s = (res, s') ->
  exists ts, s' = foldl record_pair s ts /\
    (res = Return tt /\ mapM (her_arguments o) l = Return ts \/
     res = Raise IndexError /\ exists e, mapM (her_arguments o) l = Raise e).
Proof.
  revert s. induction l as [|i l IH]; intros s; simpl.
  - intros [= <- <-]. exists []. split; [done|]. by left.
  - unfold bind. rewrite insert_pair_unfold.
    destruct (her_arguments o i) as [t|e] eqn:Ht.
    + intros H. destruct (IH _ H) as (ts & -> & Hres). exists (t :: ts).
      split; [done|]. change (mapM (her_arguments o) (i :: l))
        with (y ← her_arguments o i; k ← mapM (her_arguments o) l; mret (y :: k)).
      destruct Hres as [[-> ->]|[-> [e ->]]]; [by left|right; eauto].
    + intros [= <- <-]. exists []. split; [done|]. right.
      change (mapM (her_arguments o) (i :: l))
        with (y ← her_arguments o i; k ← mapM (her_arguments o) l; mret (y :: k)).
      apply her_arguments_raises in Ht as ->. eauto.
Qed.

Lemma insertion_loop_ok o (l : list Z) s ts :
  mapM (her_arguments o) l = Return ts ->
  for_each (insert_pair o) l s = (Return tt, foldl record_pair s ts).
Proof.
  intros Hts. destruct (for_each (insert_pair o) l s) as [res s'] eqn:Hrun.
  destruct (insertion_loop_any _ _ _ _ _ Hrun) as (ts' & -> & [[-> Hts']|[_ [e He]]]);
    congruence.
Qed.

(** ** The loop over the files *)

Lemma replayed_after_count s ts s' :
  replayed (count_and_print s).2 ts s' -> replayed s ts s'.
Proof. done. Qed.

(** One iteration of the loop over the files does nothing to the buffers
    but paired inserts, however it ends. *)
Lemma process_file_any w (file_path : option string) (file : string) s res s' :
  process_file w file_path file s = (res, s') -> exists ts, replayed s ts s'.
Proof.
  unfold process_file, bind, lift.
  destruct (count_and_print s) as [[[]|e] s1] eqn:Hc; [|done].
  assert (s1 = (count_and_print s).2) as Hs1 by (by rewrite Hc).
  assert (forall e, (Raise e, s1) = (res, s') -> exists ts, replayed s ts s') as Hfail.
  { intros e [= <- <-]. exists []. rewrite Hs1. apply replayed_after_count, replayed_refl. }
  destruct (read_local file_path) as [path|e]; [|by apply Hfail].
  destruct (open_rb w path) as [content|e]; [|by apply Hfail].
  destruct (pickle_load content) as [loaded_object|e]; [|by apply Hfail].
  destruct (as_trajectory loaded_object) as [o|e]; [|by apply Hfail].
  intros Hrun. apply insertion_loop_any in Hrun as (ts & -> & _).
  exists ts. rewrite Hs1. apply replayed_after_count, record_pairs_replayed.
Qed.

Lemma reconstruction_loop_any w (file_paths : list string) file_path s res s' :
  reconstruction_loop w file_paths file_path s = (res, s') ->
  exists ts, replayed s ts s'.
Proof.
  unfold reconstruction_loop. revert s.
  induction file_paths as [|file file_paths IH]; intros s; simpl.
  - intros [= <- <-]. exists []. apply replayed_refl.
  - unfold bind.
    destruct (process_file w file_path file s) as [[[]|e] s1] eqn:Hfile;
      destruct (process_file_any _ _ _ _ _ _ Hfile) as [ts Hts].
    + intros Hrest. destruct (IH _ Hrest) as [ts' Hts'].
      exists (ts ++ ts'). by eapply replayed_trans.
    + intros [= <- <-]. by exists ts.
Qed.

(** When the file behind [file_path] is a sound record, one iteration
    inserts its transitions, whatever [file] is. *)
Lemma process_file_ok w (path file : string) o ts s :
  open_rb w path = Return (Some (PTrajectory o)) ->
  recorded_transitions o = Return ts ->
  process_file w (Some path) file s =
    (Return tt, foldl record_pair (count_and_print s).2 ts).
Proof.
  intros Hopen Hts. unfold process_file, bind, lift. simpl.
  rewrite Hopen. simpl. by apply insertion_loop_ok.
Qed.

Lemma reconstruction_loop_ok w (path : string) (file_paths : list string) o ts s :
  open_rb w path = Return (Some (PTrajectory o)) ->
  recorded_transitions o = Return ts ->
  exists s',
    reconstruction_loop w file_paths (Some path) s = (Return tt, s') /\
    replayed s (mjoin (replicate (length file_paths) ts)) s' /\
    counter s' = counter s + Z.of_nat (length file_paths).
Proof.
  intros Hopen Hts. unfold reconstruction_loop. revert s.
  induction file_paths as [|file file_paths IH]; intros s.
  - exists s. split; [done|]. split; [apply replayed_refl|simpl; lia].
  - cbn [for_each]. unfold bind.
    rewrite (process_file_ok _ _ _ _ _ _ Hopen Hts).
    destruct (IH (foldl record_pair (count_and_print s).2 ts)) as (s' & Hrun & Hrep & Hcnt).
    exists s'. split; [done|]. split.
    + cbn [length replicate mjoin list_join]. eapply replayed_trans; [|done].
      apply replayed_after_count, record_pairs_replayed.
    + rewrite Hcnt. destruct (record_pairs_counter (count_and_print s).2 ts) as [-> _].
      simpl. lia.
Qed.

(** The loop reads the directory only through [file_path]. *)
Lemma reconstruction_loop_reads w1 w2 (file_paths : list string) file_path s :
  (forall path, file_path = Some path -> open_rb w1 path = open_rb w2 path) ->
  reconstruction_loop w1 file_paths file_path s =
  reconstruction_loop w2 file_paths file_path s.
Proof.
  intros Hopen. unfold reconstruction_loop. revert s.
  induction file_paths as [|file file_paths IH]; intros s; [done|].
  cbn [for_each]. unfold bind.
  assert (process_file w1 file_path file s = process_file w2 file_path file s) as ->.
  { unfold process_file, bind, lift. destruct file_path as [path|]; [|done].
    simpl. by rewrite (Hopen path). }
  destruct (process_file w2 file_path file s) as [[[]|e] s1]; [apply IH|done].
Qed.

(** The loop variable is not read: the loop over the files is the loop over
    as many copies of any one path. *)
Lemma reconstruction_loop_ignores_file w (file_paths : list string) file_path (p : string) s :
  reconstruction_loop w file_paths file_path s =
  reconstruction_loop w (replicate (length file_paths) p) file_path s.
Proof.
  unfold reconstruction_loop. revert s.
  induction file_paths as [|file file_paths IH]; intros s; [done|].
  cbn [for_each length replicate]. unfold bind.
  change (process_file w file_path file s) with (process_file w file_path p s).
  destruct (process_file w file_path p s) as [[[]|e] s1]; [apply IH|done].
Qed.

(** ** Persisting and the whole run *)

Lemma dump_unfold entries (path name : string) obj :
  resolve path = Some name ->
  dump (Some entries) path obj =
    if from_option is_directory false (dir_lookup name entries)
    then Raise IsADirectoryError
    else Return (Some (dir_store name (RegularFile (Some obj)) entries)).
Proof. intros Hname. unfold dump. rewrite Hname. by destruct (dir_lookup name entries) as [[]|]. Qed.

Lemma persist_unfold entries s :
  persist (Some entries) s =
    let her_file := RegularFile (Some (PHerReplayBuffer (replay_buffer s))) in
    let plain_file := RegularFile (Some (PReplayBuffer (plain_replay_buffer s))) in
    if from_option is_directory false (dir_lookup her_save_name entries)
    then {| outcome := Raise IsADirectoryError; locals := Some s; world := Some entries |}
    else if from_option is_directory false (dir_lookup plain_save_name entries)
    then {| outcome := Raise IsADirectoryError; locals := Some s;
            world := Some (dir_store her_save_name her_file entries) |}
    else {| outcome := Return tt; locals := Some s;
            world := Some (dir_store plain_save_name plain_file
                             (dir_store her_save_name her_file entries)) |}.
Proof.
  unfold persist. rewrite (dump_unfold _ _ _ _ resolve_her_save_path).
  destruct (from_option is_directory false (dir_lookup her_save_name entries)); [done|].
  rewrite (dump_unfold _ _ _ _ resolve_plain_save_path).
  rewrite dir_lookup_store_ne by done.
  by destruct (from_option is_directory false (dir_lookup plain_save_name entries)).
Qed.

Lemma persist_locals w s : locals (persist w s) = Some s.
Proof.
  unfold persist. destruct (dump w her_save_path _) as [w1|e]; [|done].
  by destruct (dump w1 plain_save_path _).
Qed.

(** A run that completes leaves the two buffers under the two save names. *)
Lemma persist_artifacts entries s :
  outcome (persist (Some entries) s) = Return tt ->
  artifact (persist (Some entries) s) her_save_name =
    Some (RegularFile (Some (PHerReplayBuffer (replay_buffer s)))) /\
  artifact (persist (Some entries) s) plain_save_name =
    Some (RegularFile (Some (PReplayBuffer (plain_replay_buffer s)))).
Proof.
  rewrite persist_unfold. cbv zeta.
  destruct (from_option is_directory false (dir_lookup her_save_name entries)); [done|].
  destruct (from_option is_directory false (dir_lookup plain_save_name entries)); [done|].
  intros _. unfold artifact. cbn [world mbind option_bind].
  split.
  - rewrite dir_lookup_store_ne by done. apply dir_lookup_store_eq.
  - apply dir_lookup_store_eq.
Qed.

Lemma persist_same_listing (es1 es2 : list (string * Entry)) s :
  same_listing es1 es2 ->
  outcome (persist (Some es1) s) = outcome (persist (Some es2) s).
Proof.
  intros Hsame. rewrite !persist_unfold. cbv zeta.
  assert (forall name,
    from_option is_directory false (dir_lookup name es1) =
    from_option is_directory false (dir_lookup name es2)) as Hdir.
  { intros name. by destruct (same_listing_lookup _ _ name Hsame). }
  rewrite !Hdir.
  destruct (from_option is_directory false (dir_lookup her_save_name es2)); [done|].
  by destruct (from_option is_directory false (dir_lookup plain_save_name es2)).
Qed.

Lemma listdir_present entries :
  os_listdir (Some entries) directory_path = Return entries.*1.
Proof. unfold os_listdir. by rewrite String.eqb_refl. Qed.

(** A run over an existing directory: the loop runs over the paths of the
    ".pkl" names with [file_path] set to the last of them, and on success
    the buffers are persisted. *)
Lemma debug_unfold args entries :
  debug args (Some entries) =
    match reconstruction_loop (Some entries)
            (path_join directory_path <$> pkl_names entries)
            (path_join directory_path <$> last (pkl_names entries))
            (allocate args) with
    | (Raise e, s) => {| outcome := Raise e; locals := Some s; world := Some entries |}
    | (Return _, s) => persist (Some entries) s
    end.
Proof.
  unfold debug. rewrite listdir_present.
  pose proof (collect_pkl_spec entries.*1) as Hspec. cbv zeta in Hspec.
  fold (pkl_names entries) in Hspec. by rewrite Hspec.
Qed.

(** However a run ends, its buffers hold paired inserts into the two empty
    buffers it allocated, and nothing else. *)
Lemma debug_replayed args w s :
  locals (debug args w) = Some s -> exists ts, replayed (allocate args) ts s.
Proof.
  destruct w as [entries|]; [|done].
  rewrite debug_unfold.
  destruct (reconstruction_loop _ _ _ _) as [[[]|e] s1] eqn:Hloop;
    apply reconstruction_loop_any in Hloop as [ts Hts].
  - rewrite persist_locals. intros [= <-]. by exists ts.
  - intros [= <-]. by exists ts.
Qed.

(** ** The log of calls *)

Lemma her_calls_paired ts : her_calls (paired_calls ts) = ts.
Proof. induction ts as [|t ts IH]; [done|]. cbn. by f_equal. Qed.

Lemma plain_calls_paired ts : plain_calls (paired_calls ts) = project <$> ts.
Proof. induction ts as [|t ts IH]; [done|]. cbn. by f_equal. Qed.

(** Every initial stretch of a log of paired inserts has as many calls on
    the plain buffer as on the goal-conditioned one, or one less; as many
    when it stops after a paired insert. *)
Lemma paired_calls_prefix ts cs cs' :
  paired_calls ts = cs ++ cs' ->
  (after_paired_insert cs -> length (her_calls cs) = length (plain_calls cs)) /\
  (length (plain_calls cs) <= length (her_calls cs) <= S (length (plain_calls cs)))%nat.
Proof.
  revert cs. induction ts as [|t ts IH]; intros cs.
  - intros Hnil. symmetry in Hnil. apply app_eq_nil in Hnil as [-> _].
    split; [done|simpl; lia].
  - change (paired_calls (t :: ts))
      with (HerAdd t :: PlainAdd (project t) :: paired_calls ts).
    destruct cs as [|c1 [|c2 cs]].
    + intros _. split; [done|simpl; lia].
    + intros [= <- _]. split; [by intros []|simpl; lia].
    + intros [= <- <- Hrest]. destruct (IH _ Hrest) as [Heq Hle].
      split.
      * intros Hafter. cbn. f_equal. apply Heq.
        destruct cs as [|c cs]; [done|exact Hafter].
      * unfold her_calls, plain_calls in *. cbn. lia.
Qed.

(** ** The claims *)

(** What every run keeps true of its two buffers: the plain one holds, slot
    by slot, the projection of the goal-conditioned one; both hold the
    inserts of one sequence of timesteps into the empty buffers of capacity
    36090; the log is the paired calls of that sequence. *)
Lemma debug_buffers args w s :
  locals (debug args w) = Some s ->
  exists ts,
    replay_buffer s = foldl add (new_buffer (Z.to_nat 36090)) ts /\
    plain_replay_buffer s = foldl add (new_buffer (Z.to_nat 36090)) (project <$> ts) /\
    calls s = paired_calls ts /\
    mirrors project (replay_buffer s) (plain_replay_buffer s).
Proof.
  intros Hs. destruct (debug_replayed _ _ _ Hs) as (ts & Hher & Hplain & Hcalls).
  exists ts. change (replay_buffer (allocate args)) with
    (new_buffer (T:=HerTransition) (Z.to_nat 36090)) in Hher.
  change (plain_replay_buffer (allocate args)) with
    (new_buffer (T:=PlainTransition) (Z.to_nat 36090)) in Hplain.
  change (calls (allocate args)) with (@nil Call) in Hcalls.
  split; [exact Hher|]. split; [exact Hplain|]. split; [exact Hcalls|].
  rewrite Hher, Hplain. apply mirrors_inserts, mirrors_new_buffer.
Qed.

Lemma mirrored_slot_forward (b : RingBuffer HerTransition) b' (i : nat) t :
  mirrors project b b' ->
  slots b !! i = Some (Some t) -> slots b' !! i = Some (Some (project t)).
Proof. intros Hm Hi. by rewrite (mirrors_slot _ _ _ _ Hm), Hi. Qed.

Lemma mirrored_slot_backward (b : RingBuffer HerTransition) b' (i : nat) (u : PlainTransition) :
  mirrors project b b' ->
  slots b' !! i = Some (Some u) ->
  exists t, slots b !! i = Some (Some t) /\ u = project t.
Proof.
  intros Hm. rewrite (mirrors_slot _ _ _ _ Hm).
  destruct (slots b !! i) as [[t|]|]; [|done..].
  intros [= <-]. by exists t.
Qed.

(** C3 (pairing invariant): however a run ends, a slot of the
    goal-conditioned buffer holds a transition exactly when the same slot of
    the plain buffer does, and the two carry the same action, reward, done
    flag and info; and the k-th call on the plain buffer was made with the
    action, reward, done flag and info of the k-th call on the
    goal-conditioned buffer. *)
Theorem pairing_invariant args w s :
  locals (debug args w) = Some s ->
  (forall (i : nat) t,
     slots (replay_buffer s) !! i = Some (Some t) ->
     exists u : PlainTransition, slots (plain_replay_buffer s) !! i = Some (Some u) /\
                same_step_values t u) /\
  (forall (i : nat) (u : PlainTransition),
     slots (plain_replay_buffer s) !! i = Some (Some u) ->
     exists t, slots (replay_buffer s) !! i = Some (Some t) /\
               same_step_values t u) /\
  (forall (k : nat) t,
     her_calls (calls s) !! k = Some t ->
     exists u : PlainTransition, plain_calls (calls s) !! k = Some u /\ same_step_values t u).
Proof.
  intros Hs. destruct (debug_buffers _ _ _ Hs) as (ts & _ & _ & Hcalls & Hm).
  split; [|split].
  - intros i t Hi. exists (project t).
    split; [by eapply mirrored_slot_forward|done].
  - intros i u Hi. destruct (mirrored_slot_backward _ _ _ _ Hm Hi) as (t & Ht & ->).
    by exists t.
  - intros k t. rewrite Hcalls, her_calls_paired, plain_calls_paired.
    intros Hk. exists (project t). by rewrite list_lookup_fmap, Hk.
Qed.

(** C4 (projection invariant): however a run ends, the observation and the
    next-observation in a slot of the plain buffer are the "observation"
    components of the structured observation and next-observation in the
    same slot of the goal-conditioned buffer, and so it is for the k-th
    calls on the two buffers. *)
Theorem projection_invariant args w s :
  locals (debug args w) = Some s ->
  (forall (i : nat) t,
     slots (replay_buffer s) !! i = Some (Some t) ->
     exists u : PlainTransition, slots (plain_replay_buffer s) !! i = Some (Some u) /\
                observation_projected t u) /\
  (forall (i : nat) (u : PlainTransition),
     slots (plain_replay_buffer s) !! i = Some (Some u) ->
     exists t, slots (replay_buffer s) !! i = Some (Some t) /\
               observation_projected t u) /\
  (forall (k : nat) t,
     her_calls (calls s) !! k = Some t ->
     exists u : PlainTransition, plain_calls (calls s) !! k = Some u /\ observation_projected t u).
Proof.
  intros Hs. destruct (debug_buffers _ _ _ Hs) as (ts & _ & _ & Hcalls & Hm).
  split; [|split].
  - intros i t Hi. exists (project t).
    split; [by eapply mirrored_slot_forward|done].
  - intros i u Hi. destruct (mirrored_slot_backward _ _ _ _ Hm Hi) as (t & Ht & ->).
    by exists t.
  - intros k t. rewrite Hcalls, her_calls_paired, plain_calls_paired.
    intros Hk. exists (project t). by rewrite list_lookup_fmap, Hk.
Qed.

(** C10: at every point of a run that lies after a paired insert (every
    initial stretch of the final log that stops after a call on the plain
    buffer, and the empty one) the two buffers have received the same number
    of insert calls; in between, the goal-conditioned buffer is one call
    ahead at most; and at the end both buffers count the same number of
    inserts, the number of calls logged for each. *)
Theorem insert_calls_balanced args w s :
  locals (debug args w) = Some s ->
  (forall cs cs',
     calls s = cs ++ cs' ->
     after_paired_insert cs ->
     length (her_calls cs) = length (plain_calls cs)) /\
  (forall cs cs',
     calls s = cs ++ cs' ->
     (length (plain_calls cs) <= length (her_calls cs) <= S (length (plain_calls cs)))%nat) /\
  total_inserted (replay_buffer s) = length (her_calls (calls s)) /\
  total_inserted (plain_replay_buffer s) = length (plain_calls (calls s)) /\
  total_inserted (replay_buffer s) = total_inserted (plain_replay_buffer s).
Proof.
  intros Hs. destruct (debug_buffers _ _ _ Hs) as (ts & Hher & Hplain & Hcalls & Hm).
  split; [|split].
  - intros cs cs' Hcs. rewrite Hcalls in Hcs. by apply (paired_calls_prefix _ _ _ Hcs).
  - intros cs cs' Hcs. rewrite Hcalls in Hcs. by apply (paired_calls_prefix _ _ _ Hcs).
  - rewrite Hcalls, her_calls_paired, plain_calls_paired, Hher, Hplain.
    rewrite !add_total_inserted, !length_fmap. done.
Qed.

(** C6 (ring overwrite): when the loop has run on two empty buffers of
    capacity [c] and more than [c] transitions were inserted, each buffer
    retains [c] transitions: the last [c] that were inserted into it, oldest
    first. *)
Theorem ring_overwrite w (file_paths : list string) file_path s0 res s (c : nat) :
  (0 < c)%nat ->
  replay_buffer s0 = new_buffer c ->
  plain_replay_buffer s0 = new_buffer c ->
  calls s0 = [] ->
  reconstruction_loop w file_paths file_path s0 = (res, s) ->
  (c < total_inserted (replay_buffer s))%nat ->
  let inserted := total_inserted (replay_buffer s) in
  inserted = length (her_calls (calls s)) /\
  contents (replay_buffer s) = drop (inserted - c) (her_calls (calls s)) /\
  contents (plain_replay_buffer s) = drop (inserted - c) (plain_calls (calls s)) /\
  length (contents (replay_buffer s)) = c /\
  length (contents (plain_replay_buffer s)) = c.
Proof.
  intros Hc Hher0 Hplain0 Hcalls0 Hloop.
  destruct (reconstruction_loop_any _ _ _ _ _ _ Hloop) as (ts & Hher & Hplain & Hcalls).
  rewrite Hher0 in Hher. rewrite Hplain0 in Hplain. rewrite Hcalls0 in Hcalls.
  rewrite Hher, Hplain, Hcalls. cbn [app].
  rewrite her_calls_paired, plain_calls_paired, add_total_inserted.
  cbn [total_inserted new_buffer Nat.add]. cbv zeta. intros Hover.
  rewrite !contents_after_inserts by done.
  rewrite !length_drop, !length_fmap.
  repeat split; try done; lia.
Qed.

(** The same for the buffers of capacity 36090 that [debug()] allocates,
    however the run ends. *)
Lemma ring_overwrite_in_debug args w s :
  locals (debug args w) = Some s ->
  contents (replay_buffer s) =
    drop (total_inserted (replay_buffer s) - Z.to_nat 36090) (her_calls (calls s)) /\
  contents (plain_replay_buffer s) =
    drop (total_inserted (plain_replay_buffer s) - Z.to_nat 36090)
         (plain_calls (calls s)).
Proof.
  intros Hs. destruct (debug_buffers _ _ _ Hs) as (ts & -> & -> & -> & _).
  rewrite her_calls_paired, plain_calls_paired, !add_total_inserted.
  cbn [total_inserted new_buffer Nat.add].
  by rewrite !contents_after_inserts by lia.
Qed.

(** C7: when the input directory does not exist the run ends in
    [FileNotFoundError], an [IOError], raised by the enumeration before any
    buffer exists; the directory is still missing afterwards and no output
    file is there. *)
Theorem missing_directory_is_fatal args :
  let r := debug args (None : World) in
  outcome r = Raise FileNotFoundError /\
  is_IOError FileNotFoundError = true /\
  locals r = None /\
  world r = None /\
  artifact r her_save_name = None /\
  artifact r plain_save_name = None.
Proof. done. Qed.

Lemma no_pkl_name_absent entries (name : string) :
  pkl_names entries = [] ->
  endswith name ".pkl" = true ->
  dir_lookup name entries = None.
Proof.
  intros Hnone Hname. destruct (dir_lookup name entries) as [x|] eqn:Hx; [|done].
  apply dir_lookup_listed in Hx.
  assert (name ∈ pkl_names entries) as Hin
    by (apply list_elem_of_filter; split; [by rewrite Hname|done]).
  rewrite Hnone in Hin. by apply elem_of_nil in Hin.
Qed.

(** C9: when the input directory exists and none of its names ends in
    ".pkl", the run completes normally and leaves under each of the two save
    names a file that holds a buffer with no insert counted and nothing
    retained. *)
Theorem no_records_empty_buffers args entries :
  pkl_names entries = [] ->
  let r := debug args (Some entries) in
  outcome r = Return tt /\
  exists b b',
    artifact r her_save_name = Some (RegularFile (Some (PHerReplayBuffer b))) /\
    artifact r plain_save_name = Some (RegularFile (Some (PReplayBuffer b'))) /\
    total_inserted b = 0%nat /\ total_inserted b' = 0%nat /\
    contents b = [] /\ contents b' = [].
Proof.
  intros Hnone r. subst r. rewrite debug_unfold, Hnone.
  cbn [fmap list_fmap last option_fmap option_map reconstruction_loop for_each ret].
  assert (outcome (persist (Some entries) (allocate args)) = Return tt) as Hok.
  { rewrite persist_unfold. cbv zeta.
    by rewrite !(no_pkl_name_absent entries) by done. }
  split; [done|].
  destruct (persist_artifacts _ _ Hok) as [Hher Hplain].
  eexists _, _. split; [exact Hher|]. split; [exact Hplain|].
  change (replay_buffer (allocate args))
    with (foldl add (new_buffer (T:=HerTransition) (Z.to_nat 36090)) []).
  change (plain_replay_buffer (allocate args))
    with (foldl add (new_buffer (T:=PlainTransition) (Z.to_nat 36090)) []).
  rewrite !contents_after_inserts by lia. done.
Qed.

(** C8, as the code has it: both buffers are constructed with the same
    capacity, the literal 36090, and still have it when the run ends; the
    capacity, the input directory and the two output paths are constants of
    [debug()]: whatever arguments the caller passes, the run is the same. *)
Theorem capacity_and_paths_are_constants args w :
  buffer_size (replay_buffer (allocate args : State)) = Z.to_nat 36090 /\
  buffer_size (plain_replay_buffer (allocate args : State)) = Z.to_nat 36090 /\
  (forall s, locals (debug args w) = Some s ->
     buffer_size (replay_buffer s) = Z.to_nat 36090 /\
     buffer_size (plain_replay_buffer s) = Z.to_nat 36090) /\
  (forall args', debug args' w = debug args w).
Proof.
  split; [done|]. split; [done|]. split; [|done].
  intros s Hs. destruct (debug_buffers _ _ _ Hs) as (ts & -> & -> & _).
  by rewrite !add_buffer_size.
Qed.

Lemma open_listed entries (name : string) :
  open_rb (Some entries) (path_join directory_path name) =
    match dir_lookup name entries with
    | Some (RegularFile content) => Return content
    | Some SubDirectory => Raise IsADirectoryError
    | None => Raise FileNotFoundError
    end.
Proof. unfold open_rb. by rewrite resolve_path_join. Qed.

Lemma pkl_names_same_listing (es1 es2 : list (string * Entry)) :
  same_listing es1 es2 -> pkl_names es1 = pkl_names es2.
Proof. intros Hsame. unfold pkl_names. by rewrite (same_listing_names _ _ Hsame). Qed.

(** C2: over a directory with at least one ".pkl" name, [file_path] is the
    path of the last such name and the loop over the enumerated paths is the
    loop that opens that one path once per ".pkl" name; when the file there
    is a record with its first [pos] transitions in place, the buffers
    receive those transitions once per ".pkl" name, and nothing else; and
    two directories with the same listing and the same file under the last
    ".pkl" name give the same outcome and the same buffers, and on
    completion the same two output files. *)
Theorem last_record_only args (es1 : list (string * Entry)) (name : string) :
  last (pkl_names es1) = Some name ->
  let path := path_join directory_path name in
  let n := length (pkl_names es1) in
  collect_pkl es1.*1 = (path_join directory_path <$> pkl_names es1, Some path) /\
  (forall s,
     reconstruction_loop (Some es1) (path_join directory_path <$> pkl_names es1)
       (Some path) s =
     reconstruction_loop (Some es1) (replicate n path) (Some path) s) /\
  (forall o ts,
     dir_lookup name es1 = Some (RegularFile (Some (PTrajectory o))) ->
     recorded_transitions o = Return ts ->
     exists s,
       locals (debug args (Some es1)) = Some s /\
       replay_buffer s =
         foldl add (new_buffer (Z.to_nat 36090)) (mjoin (replicate n ts)) /\
       plain_replay_buffer s =
         foldl add (new_buffer (Z.to_nat 36090)) (project <$> mjoin (replicate n ts)) /\
       her_calls (calls s) = mjoin (replicate n ts)) /\
  (forall es2,
     same_listing es1 es2 ->
     dir_lookup name es1 = dir_lookup name es2 ->
     let r1 := debug args (Some es1) in
     let r2 := debug args (Some es2) in
     outcome r1 = outcome r2 /\
     locals r1 = locals r2 /\
     (outcome r1 = Return tt ->
      artifact r1 her_save_name = artifact r2 her_save_name /\
      artifact r1 plain_save_name = artifact r2 plain_save_name)).
Proof.
  intros Hlast path n. subst path n.
  split; [|split; [|split]].
  - pose proof (collect_pkl_spec es1.*1) as Hspec. cbv zeta in Hspec.
    fold (pkl_names es1) in Hspec. by rewrite Hspec, Hlast.
  - intros s.
    rewrite (reconstruction_loop_ignores_file _ _ _ (path_join directory_path name)).
    by rewrite length_fmap.
  - intros o ts Hfile Hts.
    assert (open_rb (Some es1) (path_join directory_path name)
            = Return (Some (PTrajectory o))) as Hopen
      by (by rewrite open_listed, Hfile).
    destruct (reconstruction_loop_ok (Some es1) _
                (path_join directory_path <$> pkl_names es1) _ _
                (allocate args) Hopen Hts)
      as (s & Hloop & (Hher & Hplain & Hcalls) & _).
    rewrite length_fmap in Hher, Hplain, Hcalls.
    exists s. rewrite debug_unfold, Hlast. cbn [fmap option_fmap option_map].
    rewrite Hloop, persist_locals.
    split; [done|]. split; [exact Hher|]. split; [exact Hplain|].
    rewrite Hcalls. apply her_calls_paired.
  - intros es2 Hsame Hfile r1 r2. subst r1 r2.
    rewrite !debug_unfold, <- (pkl_names_same_listing _ _ Hsame), Hlast.
    cbn [fmap option_fmap option_map].
    rewrite (reconstruction_loop_reads (Some es1) (Some es2)).
    2:{ intros p [= <-]. by rewrite !open_listed, Hfile. }
    destruct (reconstruction_loop (Some es2) _ _ _) as [[[]|e] s]; [|done].
    pose proof (persist_same_listing _ _ s Hsame) as Hout.
    split; [done|]. split; [by rewrite !persist_locals|].
    intros Hok. pose proof Hok as Hok'. rewrite Hout in Hok'.
    destruct (persist_artifacts _ _ Hok) as [-> ->].
    by destruct (persist_artifacts _ _ Hok') as [-> ->].
Qed.

(** When the record behind [file_path] declares more valid transitions
    than it holds, the first iteration ends in [IndexError] and the run
    leaves the directory as it found it. *)
Lemma overdeclared_last_record_fails args entries (name : string) o e :
  last (pkl_names entries) = Some name ->
  dir_lookup name entries = Some (RegularFile (Some (PTrajectory o))) ->
  recorded_transitions o = Raise e ->
  outcome (debug args (Some entries)) = Raise IndexError /\
  world (debug args (Some entries)) = Some entries.
Proof.
  intros Hlast Hfile Hts. rewrite debug_unfold, Hlast.
  cbn [fmap option_fmap option_map].
  destruct (pkl_names entries) as [|first rest] eqn:Hnames; [done|].
  unfold reconstruction_loop. cbn [fmap list_fmap for_each]. unfold bind at 1.
  unfold process_file, bind, lift. cbn [count_and_print read_local].
  rewrite open_listed, Hfile. cbn [pickle_load as_trajectory].
  destruct (for_each (insert_pair o) (range (pos o)) _) as [res s] eqn:Hrun.
  apply insertion_loop_any in Hrun as (ts & _ & [[_ Hok]|[-> _]]); [|done].
  unfold recorded_transitions in Hts. congruence.
Qed.

(** The run over a directory with a single ".pkl" name and a sound record
    under it ends with the counter bumped once and the record's transitions
    inserted in order. *)
Lemma single_record_run args entries (name : string) o ts :
  pkl_names entries = [name] ->
  dir_lookup name entries = Some (RegularFile (Some (PTrajectory o))) ->
  recorded_transitions o = Return ts ->
  locals (debug args (Some entries)) =
    Some (foldl record_pair (count_and_print (allocate args)).2 ts).
Proof.
  intros Hnames Hfile Hts. rewrite debug_unfold, Hnames.
  unfold reconstruction_loop.
  cbn [fmap list_fmap last option_fmap option_map for_each]. unfold bind.
  erewrite process_file_ok; [|by rewrite open_listed, Hfile|done].
  cbn [ret]. apply persist_locals.
Qed.

End PipelineFacts.

(** ** The sample directories *)

Ltac evaluate :=
  cbv zeta; repeat match goal with |- _ /\ _ => split end; vm_compute; reflexivity.

(** C1, at a directory of two records with 1 + 2 = 3 valid transitions: the
    run completes, both buffers count four inserts, and what was inserted,
    and fills the first four slots, is the two transitions of "b.pkl" twice;
    the transition of "a.pkl" was inserted into neither buffer. *)
Theorem two_records_last_one_replayed_twice :
  let r := debug default_args (Some two_records) in
  let b_twice := [sample_transition 2000 0; sample_transition 2000 1;
                  sample_transition 2000 0; sample_transition 2000 1] in
  (pos (sample_record 1000 1 1) + pos (sample_record 2000 2 2) = 3)%Z /\
  outcome r = Return tt /\
  (fun s => total_inserted (replay_buffer s)) <$> locals r = Some 4%nat /\
  (fun s => total_inserted (plain_replay_buffer s)) <$> locals r = Some 4%nat /\
  (fun s => her_calls (calls s)) <$> locals r = Some b_twice /\
  (fun s => plain_calls (calls s)) <$> locals r = Some (project <$> b_twice) /\
  (fun s => take 5 (slots (replay_buffer s))) <$> locals r =
    Some ((Some <$> b_twice) ++ [None]).
Proof. evaluate. Qed.

(** C5, at a directory where a record that declares ten valid transitions
    and holds three is listed before a sound record of one transition: the
    overdeclared record is never opened, the run completes and both output
    files are written, each with the sound record's transition twice. *)
Theorem overdeclared_record_goes_unnoticed :
  let r := debug default_args (Some overdeclared_first) in
  recorded_transitions (sample_record 1000 3 10) = Raise IndexError /\
  outcome r = Return tt /\
  total_inserted <$> dumped_her r = Some 2%nat /\
  total_inserted <$> dumped_plain r = Some 2%nat /\
  (fun b => take 3 (slots b)) <$> dumped_her r =
    Some [Some (sample_transition 2000 0); Some (sample_transition 2000 0); None] /\
  (fun b => take 3 (slots b)) <$> dumped_plain r =
    Some [Some (project (sample_transition 2000 0));
          Some (project (sample_transition 2000 0)); None].
Proof. evaluate. Qed.

(** The scenario of the specification: the overdeclared record alone makes
    the run end in [IndexError], and the directory is left as it was. *)
Lemma overdeclared_alone_fails :
  outcome (debug default_args (Some overdeclared_alone)) = Raise IndexError /\
  world (debug default_args (Some overdeclared_alone)) = Some overdeclared_alone.
Proof.
  apply (overdeclared_last_record_fails default_args overdeclared_alone "bad.pkl"
           (sample_record 1000 3 10) IndexError); vm_compute; reflexivity.
Qed.

(** C8, as stated, fails: no two callers get buffers of different capacity. *)
Lemma capacity_not_caller_supplied :
  ~ caller_supplied
      (fun args => buffer_size (replay_buffer (allocate args : @State nat nat nat nat nat))).
Proof. intros (args1 & args2 & Hdiff). by apply Hdiff. Qed.

(** *** Instances of the theorems on the sample directories *)

(** C2 on [two_records]: "b.pkl" is the last ".pkl" name, its two
    transitions are inserted twice, and replacing the record under "a.pkl"
    changes neither the outcome nor the buffers. *)
Lemma last_record_only_witness :
  last (pkl_names two_records) = Some "b.pkl" /\
  (exists s,
     locals (debug default_args (Some two_records)) = Some s /\
     her_calls (calls s) =
       mjoin (replicate 2 [sample_transition 2000 0; sample_transition 2000 1])) /\
  outcome (debug default_args (Some two_records)) =
    outcome (debug default_args (Some two_records')) /\
  locals (debug default_args (Some two_records)) =
    locals (debug default_args (Some two_records')).
Proof.
  assert (last (pkl_names two_records) = Some "b.pkl") as Hlast by reflexivity.
  destruct (last_record_only default_args two_records "b.pkl" Hlast)
    as (_ & _ & Hsound & Hsame).
  split; [exact Hlast|]. split.
  - destruct (Hsound (sample_record 2000 2 2)
                [sample_transition 2000 0; sample_transition 2000 1])
      as (s & Hs & _ & _ & Hcalls); [reflexivity|vm_compute; reflexivity|].
    exists s. split; [exact Hs|exact Hcalls].
  - destruct (Hsame two_records') as (Hout & Hloc & _).
    + repeat (constructor; [split; reflexivity|]). constructor.
    + reflexivity.
    + split; [exact Hout|exact Hloc].
Defined.

(** C3 on [one_record], at slot 1. *)
Lemma pairing_invariant_witness :
  locals (debug default_args (Some one_record)) = Some after_one_record /\
  exists u,
    slots (plain_replay_buffer after_one_record) !! 1%nat = Some (Some u) /\
    same_step_values (sample_transition 0 1) u.
Proof.
  assert (locals (debug default_args (Some one_record)) = Some after_one_record)
    as Hs by (apply (single_record_run default_args one_record "episode.pkl"
                       (sample_record 0 3 3)); vm_compute; reflexivity).
  split; [exact Hs|].
  apply (proj1 (pairing_invariant default_args (Some one_record) after_one_record Hs)
           1%nat (sample_transition 0 1)).
  vm_compute; reflexivity.
Defined.

(** C4 on [one_record], at slot 2. *)
Lemma projection_invariant_witness :
  locals (debug default_args (Some one_record)) = Some after_one_record /\
  exists u,
    slots (plain_replay_buffer after_one_record) !! 2%nat = Some (Some u) /\
    observation_projected (sample_transition 0 2) u.
Proof.
  assert (locals (debug default_args (Some one_record)) = Some after_one_record)
    as Hs by (apply (single_record_run default_args one_record "episode.pkl"
                       (sample_record 0 3 3)); vm_compute; reflexivity).
  split; [exact Hs|].
  apply (proj1 (projection_invariant default_args (Some one_record) after_one_record Hs)
           2%nat (sample_transition 0 2)).
  vm_compute; reflexivity.
Defined.

(** C10 on [one_record], after the second paired insert and at the end. *)
Lemma insert_calls_balanced_witness :
  locals (debug default_args (Some one_record)) = Some after_one_record /\
  after_paired_insert (take 4 (calls after_one_record)) /\
  length (her_calls (take 4 (calls after_one_record))) =
    length (plain_calls (take 4 (calls after_one_record))) /\
  total_inserted (replay_buffer after_one_record) =
    total_inserted (plain_replay_buffer after_one_record).
Proof.
  assert (locals (debug default_args (Some one_record)) = Some after_one_record)
    as Hs by (apply (single_record_run default_args one_record "episode.pkl"
                       (sample_record 0 3 3)); vm_compute; reflexivity).
  assert (after_paired_insert (take 4 (calls after_one_record)))
    as Hafter by exact I.
  destruct (insert_calls_balanced default_args (Some one_record) after_one_record Hs)
    as (Hpoint & _ & _ & _ & Hend).
  split; [exact Hs|]. split; [exact Hafter|]. split; [|exact Hend].
  apply (Hpoint (take 4 (calls after_one_record)) (drop 4 (calls after_one_record)));
    [vm_compute; reflexivity|exact Hafter].
Defined.

(** C6 in the scenario of the specification: capacity 2 and one record of
    three valid transitions; the buffers end with the transitions of indices
    1 and 2, the one of index 0 evicted. *)
Lemma ring_overwrite_witness :
  reconstruction_loop (Some one_record)
    [path_join directory_path "episode.pkl"]
    (Some (path_join directory_path "episode.pkl")) capacity_two =
    (Return tt, after_one_record_capacity_two) /\
  contents (replay_buffer after_one_record_capacity_two) =
    [sample_transition 0 1; sample_transition 0 2] /\
  contents (plain_replay_buffer after_one_record_capacity_two) =
    [project (sample_transition 0 1); project (sample_transition 0 2)].
Proof.
  assert (reconstruction_loop (Some one_record)
            [path_join directory_path "episode.pkl"]
            (Some (path_join directory_path "episode.pkl")) capacity_two =
          (Return tt, after_one_record_capacity_two)) as Hloop
    by (vm_compute; reflexivity).
  split; [exact Hloop|].
  destruct (ring_overwrite (Some one_record)
              [path_join directory_path "episode.pkl"]
              (Some (path_join directory_path "episode.pkl"))
              capacity_two (Return tt) after_one_record_capacity_two 2%nat)
    as (_ & Hher & Hplain & _); [lia|reflexivity|reflexivity|reflexivity|exact Hloop| |].
  - vm_compute. lia.
  - rewrite Hher, Hplain. split; vm_compute; reflexivity.
Defined.

(** C9 on [no_records]. *)
Lemma no_records_empty_buffers_witness :
  pkl_names no_records = [] /\
  outcome (debug default_args (Some no_records)) = Return tt.
Proof.
  assert (pkl_names no_records = []) as Hnone by reflexivity.
  split; [exact Hnone|].
  exact (proj1 (no_records_empty_buffers default_args no_records Hnone)).
Defined.

(** C8, as the code has it, on [one_record]: the run ends with buffers of
    capacity 36090 and is the same for two callers that differ in every
    argument. *)
Lemma capacity_and_paths_are_constants_witness :
  locals (debug default_args (Some one_record)) = Some after_one_record /\
  buffer_size (replay_buffer after_one_record) = Z.to_nat 36090 /\
  buffer_size (plain_replay_buffer after_one_record) = Z.to_nat 36090 /\
  debug other_args (Some one_record) = debug default_args (Some one_record).
Proof.
  assert (locals (debug default_args (Some one_record)) = Some after_one_record)
    as Hs by (apply (single_record_run default_args one_record "episode.pkl"
                       (sample_record 0 3 3)); vm_compute; reflexivity).
  destruct (capacity_and_paths_are_constants default_args (Some one_record))
    as (_ & _ & Hend & Hsame).
  destruct (Hend after_one_record Hs) as [Hher Hplain].
  split; [exact Hs|]. split; [exact Hher|]. split; [exact Hplain|].
  exact (Hsame other_args).
Defined.

(** * Further properties of the pipeline (lines 208-255) *)

Section PipelineExtras.
Context {Obs Goal Act Rew Info : Type}.
Local Abbreviation HerTransition := (@HerTransition Obs Goal Act Rew Info).
Local Abbreviation Trajectory := (@Trajectory Obs Goal Act Rew Info).
Local Abbreviation State := (@State Obs Goal Act Rew Info).
Local Abbreviation World := (@World Obs Goal Act Rew Info).
Local Abbreviation Entry := (@Entry Obs Goal Act Rew Info).
Implicit Types (o : Trajectory) (s : State) (w : World) (t : HerTransition).
Implicit Types (ts : list HerTransition) (entries : list (string * Entry)).

Ltac conjuncts := repeat match goal with |- _ /\ _ => split end.

(** ** The counter *)

Lemma insertion_loop_counter o (l : list Z) s res s' :
  for_each (insert_pair o) l s = (res, s') ->
  counter s' = counter s /\ stdout s' = stdout s.
Proof.
  intros Hrun. apply insertion_loop_any in Hrun as (ts & -> & _).
  apply record_pairs_counter.
Qed.

Lemma process_file_counter w (file_path : option string) (file : string) s res s' :
  process_file w file_path file s = (res, s') ->
  counter s' = counter s + 1 /\ stdout s' = stdout s ++ [counter s + 1].
Proof.
  unfold process_file, bind, lift. cbn [count_and_print].
  set (s1 := {| replay_buffer := replay_buffer s;
                plain_replay_buffer := plain_replay_buffer s;
                counter := counter s + 1;
                stdout := stdout s ++ [counter s + 1];
                calls := calls s |}).
  destruct (read_local file_path) as [path|e]; [|by intros [= <- <-]].
  destruct (open_rb w path) as [content|e]; [|by intros [= <- <-]].
  destruct (pickle_load content) as [loaded_object|e]; [|by intros [= <- <-]].
  destruct (as_trajectory loaded_object) as [o|e]; [|by intros [= <- <-]].
  intros Hrun. by destruct (insertion_loop_counter _ _ _ _ _ Hrun) as [-> ->].
Qed.

(** The loop over the files bumps and prints the counter once per iteration
    it starts: all of them when it completes, at least one when it raises. *)
Lemma reconstruction_loop_counter w (file_paths : list string) file_path s res s' :
  reconstruction_loop w file_paths file_path s = (res, s') ->
  exists k : nat,
    (k <= length file_paths)%nat /\
    counter s' = counter s + Z.of_nat k /\
    stdout s' = stdout s ++ seqZ (counter s + 1) (Z.of_nat k) /\
    (res = Return tt -> k = length file_paths) /\
    (forall e, res = Raise e -> (1 <= k)%nat).
Proof.
  unfold reconstruction_loop. revert s.
  induction file_paths as [|file file_paths IH]; intros s.
  - intros [= <- <-]. exists 0%nat. simpl. rewrite app_nil_r, Z.add_0_r.
    conjuncts; [lia|done..].
  - cbn [for_each]. unfold bind.
    destruct (process_file w file_path file s) as [[[]|e] s1] eqn:Hfile;
      destruct (process_file_counter _ _ _ _ _ _ Hfile) as [Hc Hout].
    + intros Hrest. destruct (IH _ Hrest) as (k & Hk & Hc' & Hout' & Hret & Hraise).
      exists (S k). rewrite Hc', Hout', Hc, Hout. cbn [length].
      conjuncts; [lia|lia| |intros H; by rewrite (Hret H)|intros; lia].
      rewrite <- app_assoc. f_equal.
      rewrite (seqZ_cons (counter s + 1)) by lia. cbn [app]. do 2 f_equal; lia.
    + intros [= <- <-]. exists 1%nat. rewrite Hc, Hout. cbn [length].
      conjuncts; [lia|done|done|done|intros; lia].
Qed.

(** X1: however a run over an existing directory ends, what it has printed
    is 1, 2, ..., counter, one number per iteration of the loop over the
    files that was started; the counter never exceeds the number of ".pkl"
    names and equals it when the run completes. *)
Theorem counter_counts_started_files args entries s :
  locals (debug args (Some entries)) = Some s ->
  stdout s = seqZ 1 (counter s) /\
  0 <= counter s <= Z.of_nat (length (pkl_names entries)) /\
  (outcome (debug args (Some entries)) = Return tt ->
   counter s = Z.of_nat (length (pkl_names entries))).
Proof.
  rewrite debug_unfold.
  destruct (reconstruction_loop _ _ _ _) as [res s1] eqn:Hloop.
  destruct (reconstruction_loop_counter _ _ _ _ _ _ Hloop)
    as (k & Hk & Hc & Hout & Hret & _).
  rewrite length_fmap in Hk, Hret.
  change (counter (allocate args)) with 0 in Hc, Hout.
  change (stdout (allocate args)) with (@nil Z) in Hout.
  assert (locals (match res with
                  | Return _ => persist (Some entries) s1
                  | Raise e => {| outcome := Raise e; locals := Some s1;
                                  world := Some entries |}
                  end) = Some s1) as Hlocals
    by (destruct res; [apply persist_locals|done]).
  destruct res as [[]|e]; rewrite Hlocals; intros [= <-];
    rewrite Hc, Hout; cbn [app]; rewrite Z.add_0_l.
  - rewrite (Hret eq_refl). conjuncts; [done|lia|lia|done].
  - conjuncts; [done|lia|lia|done].
Qed.

(** ** What the run writes *)

(** X2: a run never touches an entry of the directory other than the two
    save names: whatever the outcome, every other name holds afterwards what
    it held before. *)
Theorem other_entries_untouched args entries (name : string) :
  name <> her_save_name ->
  name <> plain_save_name ->
  artifact (debug args (Some entries)) name = dir_lookup name entries.
Proof.
  intros Hher Hplain. rewrite debug_unfold.
  destruct (reconstruction_loop _ _ _ _) as [[[]|e] s]; [|done].
  rewrite persist_unfold. cbv zeta.
  destruct (from_option is_directory false (dir_lookup her_save_name entries)); [done|].
  destruct (from_option is_directory false (dir_lookup plain_save_name entries));
    unfold artifact; cbn [world mbind option_bind];
    by rewrite !dir_lookup_store_ne by done.
Qed.


(** X4: persisting is not atomic.  When the name of the second output file
    is taken by a sub-directory, the name of the first is not, and the last
    ".pkl" name holds a sound record, the run ends in [IsADirectoryError]
    after it has written the goal-conditioned buffer. *)
Theorem second_dump_failure_keeps_first args entries (name : string) o ts :
  dir_lookup plain_save_name entries = Some SubDirectory ->
  dir_lookup her_save_name entries <> Some SubDirectory ->
  last (pkl_names entries) = Some name ->
  dir_lookup name entries = Some (RegularFile (Some (PTrajectory o))) ->
  recorded_transitions o = Return ts ->
  let r := debug args (Some entries) in
  outcome r = Raise IsADirectoryError /\
  artifact r plain_save_name = Some SubDirectory /\
  exists s, locals r = Some s /\
    artifact r her_save_name =
      Some (RegularFile (Some (PHerReplayBuffer (replay_buffer s)))).
Proof.
  intros Hplain Hher Hlast Hfile Hts r. subst r.
  assert (open_rb (Some entries) (path_join directory_path name)
          = Return (Some (PTrajectory o))) as Hopen
    by (by rewrite open_listed, Hfile).
  destruct (reconstruction_loop_ok (Some entries) _
              (path_join directory_path <$> pkl_names entries) _ _
              (allocate args) Hopen Hts) as (s & Hloop & _).
  rewrite debug_unfold, Hlast. cbn [fmap option_fmap option_map].
  rewrite Hloop, persist_unfold. cbv zeta. rewrite Hplain.
  assert (from_option is_directory false (dir_lookup her_save_name entries) = false)
    as -> by (by destruct (dir_lookup her_save_name entries) as [[]|]).
  cbn [from_option is_directory outcome locals].
  unfold artifact. cbn [world mbind option_bind].
  conjuncts; [done|by rewrite dir_lookup_store_ne|].
  exists s. by rewrite dir_lookup_store_eq.
Qed.


(** ** Which records are sound *)

Lemma getitem_nonneg {A} (l : list A) (i : Z) :
  0 <= i ->
  getitem l i = match l !! Z.to_nat i with
                | Some x => Return x
                | None => Raise IndexError
                end.
Proof.
  intros Hi. unfold getitem.
  destruct (i <? 0) eqn:Hneg; [apply Z.ltb_lt in Hneg; lia|]. by rewrite Hneg.
Qed.

(** At an index from [range], the arguments of a paired insert can be read
    exactly when the index is below the length of every sequence. *)
Lemma her_arguments_returns_iff o (i : Z) :
  0 <= i ->
  (exists t, her_arguments o i = Return t) <-> (Z.to_nat i < shortest o)%nat.
Proof.
  intros Hi. unfold her_arguments, mbind, mret, Outcome_bind, Outcome_ret.
  rewrite !getitem_nonneg by done. unfold shortest. cbn [foldr].
  repeat match goal with
  | |- context [@lookup _ _ _ _ (Z.to_nat i) ?l] =>
      let H := fresh "Hl" in
      destruct (l !! Z.to_nat i) eqn:H;
      [apply lookup_lt_Some in H|apply lookup_ge_None in H]
  end;
  (split; [intros [t Ht]; try discriminate; lia|intros; try lia; eauto]).
Qed.

Lemma mapM_returns {A B} (f : A -> Outcome B) (l : list A) :
  (forall x, x ∈ l -> exists y, f x = Return y) ->
  exists ys, mapM f l = Return ys.
Proof.
  induction l as [|x l IH]; intros Hall; [by exists []|].
  destruct (Hall x) as [y Hy]; [by left|].
  destruct IH as [ys Hys]; [intros; apply Hall; by right|].
  exists (y :: ys). cbn. by rewrite Hy, Hys.
Qed.

Lemma mapM_returned {A B} (f : A -> Outcome B) (l : list A) ys :
  mapM f l = Return ys ->
  length ys = length l /\ forall x, x ∈ l -> exists y, f x = Return y.
Proof.
  revert ys. induction l as [|x l IH]; intros ys.
  - intros [= <-]. split; [done|]. by intros x Hx%elem_of_nil.
  - cbn. destruct (f x) as [y|e] eqn:Hy; [|done].
    destruct (mapM f l) as [ys'|e] eqn:Hys; [|done].
    intros [= <-]. destruct (IH _ eq_refl) as [Hlen Hall].
    split; [by rewrite <- Hlen|].
    intros x' [->|Hx']%elem_of_cons; eauto.
Qed.

Lemma record_sound_iff_short_enough_aux o :
  pos o <= Z.of_nat (shortest o) ->
  exists ts, recorded_transitions o = Return ts /\ length ts = Z.to_nat (pos o).
Proof.
  intros Hpos. unfold recorded_transitions, range.
  destruct (mapM_returns (her_arguments o) (seqZ 0 (pos o))) as [ts Hts].
  { intros i Hi%elem_of_seqZ. apply her_arguments_returns_iff; lia. }
  exists ts. split; [done|].
  destruct (mapM_returned _ _ _ Hts) as [-> _]. apply length_seqZ.
Qed.

(** X6: the first [pos] transitions of a record can all be read exactly when
    [pos] does not exceed the length of the shortest of its ten sequences (a
    [pos] of zero or less always qualifies); there are then [pos] of
    them. *)
Theorem record_sound_iff_short_enough o :
  ((exists ts, recorded_transitions o = Return ts) <->
   pos o <= Z.of_nat (shortest o)) /\
  (forall ts, recorded_transitions o = Return ts ->
              length ts = Z.to_nat (pos o)).
Proof.
  unfold recorded_transitions, range. split; [split|].
  - intros [ts Hts]. destruct (mapM_returned _ _ _ Hts) as [_ Hall].
    destruct (decide (pos o <= 0)) as [|Hpos]; [lia|].
    destruct (Hall (pos o - 1)) as [t Ht]; [apply elem_of_seqZ; lia|].
    assert (exists t, her_arguments o (pos o - 1) = Return t) as Hex by eauto.
    apply her_arguments_returns_iff in Hex; lia.
  - intros Hpos. apply mapM_returns. intros i Hi%elem_of_seqZ.
    apply her_arguments_returns_iff; lia.
  - intros ts Hts. destruct (mapM_returned _ _ _ Hts) as [-> _].
    apply length_seqZ.
Qed.

Lemma for_each_app {A} (body : A -> M unit) (l1 l2 : list A) s :
  for_each body (l1 ++ l2) s =
    match for_each body l1 s with
    | (Return _, s1) => for_each body l2 s1
    | (Raise e, s1) => (Raise e, s1)
    end.
Proof.
  revert s. induction l1 as [|x l1 IH]; intros s; [done|].
  cbn [app for_each]. unfold bind.
  destruct (body x s) as [[[]|e] s1]; [apply IH|done].
Qed.

(** The insertion loop over a record that declares more transitions than
    its shortest sequence holds: the transitions below that length are
    inserted, then [IndexError] is raised. *)
Lemma insertion_loop_overdeclared o s :
  Z.of_nat (shortest o) < pos o ->
  exists ts,
    mapM (her_arguments o) (range (Z.of_nat (shortest o))) = Return ts /\
    length ts = shortest o /\
    for_each (insert_pair o) (range (pos o)) s =
      (Raise IndexError, foldl record_pair s ts).
Proof.
  intros Hover.
  destruct (mapM_returns (her_arguments o) (range (Z.of_nat (shortest o))))
    as [ts Hts].
  { intros i Hi%elem_of_seqZ. apply her_arguments_returns_iff; lia. }
  exists ts. split; [done|].
  split; [destruct (mapM_returned _ _ _ Hts) as [-> _];
          unfold range; rewrite length_seqZ; lia|].
  unfold range in *.
  replace (pos o) with (Z.of_nat (shortest o) + (pos o - Z.of_nat (shortest o))) by lia.
  rewrite seqZ_app by lia. rewrite for_each_app, (insertion_loop_ok _ _ _ _ Hts).
  rewrite seqZ_cons by lia. cbn [for_each]. unfold bind.
  rewrite insert_pair_unfold.
  destruct (her_arguments o (0 + Z.of_nat (shortest o))) as [t|e] eqn:Ht.
  - assert (exists t, her_arguments o (0 + Z.of_nat (shortest o)) = Return t)
      as Hex by eauto.
    apply her_arguments_returns_iff in Hex; lia.
  - by apply her_arguments_raises in Ht as ->.
Qed.

(** X7: when the record under the last ".pkl" name declares more valid
    transitions than its shortest sequence holds, the run ends in
    [IndexError] in its first iteration with nothing written, but not before
    it has inserted into both buffers the transitions that could be read: as
    many as the shortest sequence is long. *)
Theorem overdeclared_record_inserts_before_failing args entries (name : string) o :
  last (pkl_names entries) = Some name ->
  dir_lookup name entries = Some (RegularFile (Some (PTrajectory o))) ->
  Z.of_nat (shortest o) < pos o ->
  let r := debug args (Some entries) in
  outcome r = Raise IndexError /\
  world r = Some entries /\
  exists s, locals r = Some s /\
    counter s = 1 /\
    total_inserted (replay_buffer s) = shortest o /\
    total_inserted (plain_replay_buffer s) = shortest o /\
    mapM (her_arguments o) (range (Z.of_nat (shortest o))) =
      Return (her_calls (calls s)).
Proof.
  intros Hlast Hfile Hover r. subst r. rewrite debug_unfold, Hlast.
  cbn [fmap option_fmap option_map].
  destruct (pkl_names entries) as [|first rest] eqn:Hnames; [done|].
  unfold reconstruction_loop. cbn [fmap list_fmap for_each]. unfold bind at 1.
  unfold process_file, bind, lift. cbn [count_and_print read_local].
  rewrite open_listed, Hfile. cbn [pickle_load as_trajectory].
  match goal with |- context [for_each (insert_pair o) (range (pos o)) ?s0] =>
    destruct (insertion_loop_overdeclared o s0 Hover) as (ts & Hts & Hlen & ->);
    pose proof (record_pairs_replayed s0 ts) as (Hher & Hplain & Hcalls);
    pose proof (record_pairs_counter s0 ts) as [Hc _]
  end.
  cbn [outcome world locals]. conjuncts; [done|done|].
  eexists. split; [done|].
  rewrite Hher, Hplain, Hcalls, Hc. cbn [replay_buffer plain_replay_buffer calls counter].
  change (replay_buffer (allocate args))
    with (new_buffer (T:=HerTransition) (Z.to_nat 36090)).
  change (plain_replay_buffer (allocate args))
    with (new_buffer (T:=@PlainTransition Obs Act Rew Info) (Z.to_nat 36090)).
  change (calls (allocate args)) with (@nil (@Call Obs Goal Act Rew Info)).
  change (counter (allocate args)) with 0. cbn [app].
  rewrite !add_total_inserted, length_fmap, her_calls_paired.
  cbn [total_inserted new_buffer]. conjuncts; [done|lia|lia|done].
Qed.

(** X8: when the record under the last ".pkl" name is sound, each buffer
    ends with a count of inserts equal to the number of ".pkl" names times
    the record's [pos] (zero inserts when [pos] is zero or less), and the
    counter equal to the number of ".pkl" names. *)
Theorem inserted_count_formula args entries (name : string) o :
  last (pkl_names entries) = Some name ->
  dir_lookup name entries = Some (RegularFile (Some (PTrajectory o))) ->
  pos o <= Z.of_nat (shortest o) ->
  exists s, locals (debug args (Some entries)) = Some s /\
    total_inserted (replay_buffer s) =
      (length (pkl_names entries) * Z.to_nat (pos o))%nat /\
    total_inserted (plain_replay_buffer s) =
      (length (pkl_names entries) * Z.to_nat (pos o))%nat /\
    counter s = Z.of_nat (length (pkl_names entries)).
Proof.
  intros Hlast Hfile Hsound.
  destruct (record_sound_iff_short_enough_aux o Hsound) as (ts & Hts & Hlen).
  assert (open_rb (Some entries) (path_join directory_path name)
          = Return (Some (PTrajectory o))) as Hopen
    by (by rewrite open_listed, Hfile).
  destruct (reconstruction_loop_ok (Some entries) _
              (path_join directory_path <$> pkl_names entries) _ _
              (allocate args) Hopen Hts)
    as (s & Hloop & (Hher & Hplain & _) & Hc).
  rewrite length_fmap in Hher, Hplain, Hc.
  exists s. rewrite debug_unfold, Hlast. cbn [fmap option_fmap option_map].
  rewrite Hloop, persist_locals. split; [done|].
  rewrite Hher, Hplain, Hc.
  change (replay_buffer (allocate args))
    with (new_buffer (T:=HerTransition) (Z.to_nat 36090)).
  change (plain_replay_buffer (allocate args))
    with (new_buffer (T:=@PlainTransition Obs Act Rew Info) (Z.to_nat 36090)).
  change (counter (allocate args)) with 0.
  rewrite !add_total_inserted, length_fmap.
  assert (length (mjoin (replicate (length (pkl_names entries)) ts))
          = (length (pkl_names entries) * Z.to_nat (pos o))%nat) as ->.
  { rewrite <- Hlen. generalize (length (pkl_names entries)). intros n.
    induction n as [|n IH]; [done|].
    simpl in *. rewrite length_app, IH. lia. }
  cbn [total_inserted new_buffer]. conjuncts; [lia..].
Qed.

(** ** The order of enumeration *)

Lemma dir_lookup_elem_of entries (name : string) x :
  NoDup entries.*1 ->
  dir_lookup name entries = Some x <-> (name, x) ∈ entries.
Proof.
  induction entries as [|[n y] entries IH]; simpl.
  - intros _. split; [done|by intros ?%elem_of_nil].
  - intros [Hn Hnodup]%NoDup_cons. rewrite elem_of_cons.
    destruct (String.eqb n name) eqn:Heq.
    + apply String.eqb_eq in Heq as ->. split.
      * intros [= ->]. by left.
      * intros [[= ->]|Hin]; [done|].
        destruct Hn. apply list_elem_of_fmap. by exists (name, x).
    + apply String.eqb_neq in Heq. rewrite (IH Hnodup). split; [by right|].
      by intros [[= -> ->]|Hin].
Qed.

Lemma dir_lookup_Permutation (es1 es2 : list (string * Entry)) (name : string) :
  es1 ≡ₚ es2 -> NoDup es1.*1 ->
  dir_lookup name es1 = dir_lookup name es2.
Proof.
  intros Hperm Hnodup.
  assert (NoDup es2.*1) as Hnodup' by (by rewrite <- Hperm).
  apply option_eq. intros x.
  rewrite !dir_lookup_elem_of by done. by rewrite Hperm.
Qed.

(** X9: the order in which [os.listdir] enumerates the directory matters
    only through which ".pkl" name comes last: two enumerations of the same
    entries (no name twice) with the same last ".pkl" name give the same
    outcome and the same buffers, and on completion the same two output
    files. *)
Theorem enumeration_order_only_through_last args (es1 es2 : list (string * Entry)) :
  es1 ≡ₚ es2 ->
  NoDup es1.*1 ->
  last (pkl_names es1) = last (pkl_names es2) ->
  let r1 := debug args (Some es1) in
  let r2 := debug args (Some es2) in
  outcome r1 = outcome r2 /\
  locals r1 = locals r2 /\
  (outcome r1 = Return tt ->
   artifact r1 her_save_name = artifact r2 her_save_name /\
   artifact r1 plain_save_name = artifact r2 plain_save_name).
Proof.
  intros Hperm Hnodup Hlast r1 r2. subst r1 r2.
  assert (length (pkl_names es1) = length (pkl_names es2)) as Hlen.
  { unfold pkl_names. by rewrite Hperm. }
  rewrite !debug_unfold, <- Hlast.
  rewrite (reconstruction_loop_ignores_file (Some es1) _ _ ""),
          (reconstruction_loop_ignores_file (Some es2) _ _ "").
  rewrite !length_fmap, <- Hlen.
  rewrite (reconstruction_loop_reads (Some es1) (Some es2)).
  2:{ intros path _. unfold open_rb. destruct (resolve path) as [name|]; [|done].
      by rewrite (dir_lookup_Permutation _ _ name Hperm Hnodup). }
  destruct (reconstruction_loop (Some es2) _ _ _) as [[[]|e] s]; [|done].
  assert (outcome (persist (Some es1) s) = outcome (persist (Some es2) s)) as Hout.
  { rewrite !persist_unfold. cbv zeta.
    rewrite !(dir_lookup_Permutation es1 es2) by done.
    destruct (from_option is_directory false (dir_lookup her_save_name es2)); [done|].
    by destruct (from_option is_directory false (dir_lookup plain_save_name es2)). }
  split; [done|]. split; [by rewrite !persist_locals|].
  intros Hok. pose proof Hok as Hok'. rewrite Hout in Hok'.
  destruct (persist_artifacts _ _ Hok) as [-> ->].
  by destruct (persist_artifacts _ _ Hok') as [-> ->].
Qed.

End PipelineExtras.

(** *** Instances on the sample directories *)

(** X1 on [one_record]: one ".pkl" name, so 1 is printed. *)
Lemma counter_counts_started_files_witness :
  locals (debug default_args (Some one_record)) = Some after_one_record /\
  stdout after_one_record = [1] /\
  counter after_one_record = 1.
Proof.
  assert (locals (debug default_args (Some one_record)) = Some after_one_record)
    as Hs by (apply (single_record_run default_args one_record "episode.pkl"
                       (sample_record 0 3 3)); vm_compute; reflexivity).
  destruct (counter_counts_started_files default_args one_record after_one_record Hs)
    as (Hout & _ & Hc).
  split; [exact Hs|].
  assert (counter after_one_record = 1) as Hone
    by (apply Hc; vm_compute; reflexivity).
  split; [|exact Hone]. rewrite Hout, Hone. reflexivity.
Defined.

(** X2 on [two_records]: "a.pkl" is as it was after the run. *)
Lemma other_entries_untouched_witness :
  artifact (debug default_args (Some two_records)) "a.pkl" =
    Some (pickled (sample_record 1000 1 1)).
Proof.
  rewrite (other_entries_untouched default_args two_records "a.pkl");
    [reflexivity|discriminate|discriminate].
Defined.


(** X4 on [plain_path_blocked]. *)
Lemma second_dump_failure_keeps_first_witness :
  outcome (debug default_args (Some plain_path_blocked)) = Raise IsADirectoryError /\
  artifact (debug default_args (Some plain_path_blocked)) plain_save_name =
    Some SubDirectory.
Proof.
  destruct (second_dump_failure_keeps_first default_args plain_path_blocked "z.pkl"
              (sample_record 0 1 1) [sample_transition 0 0])
    as (Hout & Hplain & _);
    [reflexivity|discriminate|reflexivity|reflexivity|vm_compute; reflexivity|].
  split; [exact Hout|exact Hplain].
Defined.


(** X6 on the record that declares ten transitions and holds three, and on
    a sound one. *)
Lemma record_sound_iff_short_enough_witness :
  ~ (exists ts, recorded_transitions (sample_record 1000 3 10) = Return ts) /\
  (exists ts, recorded_transitions (sample_record 0 3 3) = Return ts).
Proof.
  split.
  - intros Hsound.
    apply (proj1 (proj1 (record_sound_iff_short_enough (sample_record 1000 3 10))))
      in Hsound.
    vm_compute in Hsound. by apply Hsound.
  - apply (proj2 (proj1 (record_sound_iff_short_enough (sample_record 0 3 3)))).
    vm_compute. discriminate.
Defined.

(** X7 on [overdeclared_alone]: three transitions are inserted before the
    [IndexError]. *)
Lemma overdeclared_record_inserts_before_failing_witness :
  outcome (debug default_args (Some overdeclared_alone)) = Raise IndexError /\
  exists s, locals (debug default_args (Some overdeclared_alone)) = Some s /\
    total_inserted (replay_buffer s) = 3%nat.
Proof.
  destruct (overdeclared_record_inserts_before_failing default_args
              overdeclared_alone "bad.pkl" (sample_record 1000 3 10))
    as (Hout & _ & s & Hs & _ & Hher & _);
    [reflexivity|reflexivity|vm_compute; reflexivity|].
  split; [exact Hout|]. exists s. split; [exact Hs|exact Hher].
Defined.

(** X8 on [two_records]: two ".pkl" names and a last record of two
    transitions make four inserts. *)
Lemma inserted_count_formula_witness :
  exists s, locals (debug default_args (Some two_records)) = Some s /\
    total_inserted (replay_buffer s) = 4%nat /\
    total_inserted (plain_replay_buffer s) = 4%nat.
Proof.
  destruct (inserted_count_formula default_args two_records "b.pkl"
              (sample_record 2000 2 2))
    as (s & Hs & Hher & Hplain & _);
    [reflexivity|reflexivity|vm_compute; discriminate|].
  exists s. split; [exact Hs|]. split; [exact Hher|exact Hplain].
Defined.

(** X9 on [two_records] and [two_records_reordered]. *)
Lemma enumeration_order_only_through_last_witness :
  outcome (debug default_args (Some two_records)) =
    outcome (debug default_args (Some two_records_reordered)) /\
  locals (debug default_args (Some two_records)) =
    locals (debug default_args (Some two_records_reordered)).
Proof.
  destruct (enumeration_order_only_through_last default_args
              two_records two_records_reordered) as (Hout & Hloc & _).
  - apply perm_swap.
  - apply (bool_decide_unpack _). vm_compute. exact I.
  - reflexivity.
  - split; [exact Hout|exact Hloc].
Defined.

(** * The slider harness *)

Section SimulationFacts.
Import Simulation.
Context {Engine Value : Type} `{!PhysicsEngine Engine Value}.
Implicit Types (self : @DebugSimulation Value) (e : Engine) (ids : list Z).

Ltac conjuncts := repeat match goal with |- _ /\ _ => split end.

Lemma read_each_snoc ids (id : Z) e :
  read_each (ids ++ [id]) e =
    let '(values, e1) := read_each ids e in
    let '(v, e2) := readUserDebugParameter id e1 in
    (values ++ [v], e2).
Proof. unfold read_each. rewrite foldl_snoc. by destruct (foldl _ _ _). Qed.

Lemma read_each_length ids e : length (read_each ids e).1 = length ids.
Proof.
  induction ids as [|id ids IH] using rev_ind; [done|].
  rewrite read_each_snoc. destruct (read_each ids e) as [values e1].
  destruct (readUserDebugParameter id e1) as [v e2].
  simpl in *. rewrite !length_app, IH. done.
Qed.

(** On an engine whose readings do not change its state, a loop of
    readings reads each slider off that one state. *)
Lemma read_each_passive ids e :
  (forall id e, (readUserDebugParameter id e).2 = e) ->
  read_each ids e = ((fun id => (readUserDebugParameter id e).1) <$> ids, e).
Proof.
  intros Hpassive. induction ids as [|id ids IH] using rev_ind; [done|].
  rewrite read_each_snoc, IH, fmap_app. cbn [fmap list_fmap].
  pose proof (Hpassive id e) as He.
  destruct (readUserDebugParameter id e) as [v e2]. simpl in *. by subst.
Qed.

Lemma grasp_angles_loop ids (n : nat) e :
  (n <= length ids)%nat ->
  foldl (fun '(acc, e) i =>
           match acc with
           | Raises x => (Raises x, e)
           | Returns grasp_angles =>
               match subscript ids i with
               | Raises x => (Raises x, e)
               | Returns id =>
                   let '(v, e) := readUserDebugParameter id e in
                   (Returns (grasp_angles ++ [v]), e)
               end
           end)
        (Returns [], e) (range (Z.of_nat n)) =
  (Returns (read_each (take n ids) e).1, (read_each (take n ids) e).2).
Proof.
  induction n as [|n IH]; intros Hn; [done|].
  unfold range in *. rewrite seqZ_S, foldl_snoc, IH by lia.
  destruct (lookup_lt_is_Some_2 ids n) as [id Hid]; [lia|].
  rewrite (take_S_r _ _ _ Hid), read_each_snoc.
  unfold subscript. rewrite getitem_nonneg by lia.
  rewrite Z.add_0_l, Nat2Z.id, Hid.
  destruct (read_each (take n ids) e) as [values e1]. simpl.
  by destruct (readUserDebugParameter id e1) as [v e2].
Qed.

(** X10: [get_current_grasp_angles] never raises: its loop over the indices
    reads each registered grasp-angle slider once, in order, and returns as
    many readings as sliders are registered. *)
Theorem grasp_angles_read_each self e :
  exists values e',
    get_current_grasp_angles self e = (Returns values, e') /\
    read_each (grasp_angles self) e = (values, e') /\
    length values = length (grasp_angles self).
Proof.
  exists (read_each (grasp_angles self) e).1, (read_each (grasp_angles self) e).2.
  unfold get_current_grasp_angles. cbv zeta.
  rewrite grasp_angles_loop by done. rewrite firstn_all.
  conjuncts; [done|by destruct (read_each _ _)|apply read_each_length].
Qed.

Lemma subscript_first {A} (l : list A) :
  subscript l 0 = match l with
                  | x :: _ => Returns x
                  | [] => Raises IndexError
                  end.
Proof. by destruct l. Qed.

(** A step on which the reset reading is above [latest_reset]. *)
Lemma step_pressed self e :
  gt (readUserDebugParameter (reset_button self) e).1 (latest_reset self) = true ->
  step self e =
    let '(_, e1) := readUserDebugParameter (reset_button self) e in
    let '(v, e2) := readUserDebugParameter (reset_button self) e1 in
    (Raises AttributeError, set_latest_reset self v, e2).
Proof.
  unfold step. destruct (readUserDebugParameter (reset_button self) e) as [pressed e1].
  cbn [fst]. by intros ->.
Qed.

(** A step on which it is not: the action has up to three pose readings,
    the first orientation reading and the grasp-angle readings. *)
Lemma step_quiet self e :
  gt (readUserDebugParameter (reset_button self) e).1 (latest_reset self) = false ->
  hand_orientation self <> [] ->
  exists action e',
    step self e = (Returns action, self, e') /\
    length action =
      (length (hand_pose self) `min` 3 + 1 + length (grasp_angles self))%nat.
Proof.
  intros Hquiet Hne. unfold step.
  destruct (readUserDebugParameter (reset_button self) e) as [pressed e1].
  cbn [fst] in Hquiet. rewrite Hquiet.
  pose proof (read_each_length (hand_pose self) e1) as Hpose.
  destruct (read_each (hand_pose self) e1) as [target_pose e2].
  pose proof (read_each_length (hand_orientation self) e2) as Horient.
  destruct (read_each (hand_orientation self) e2) as [target_orientation e3].
  cbn [fst] in Hpose, Horient. rewrite subscript_first.
  destruct target_orientation as [|first_orientation others].
  { destruct (hand_orientation self); [done|discriminate]. }
  destruct (grasp_angles_read_each self e3) as (angles & e4 & -> & _ & Hangles).
  eexists _, _. split; [done|].
  rewrite !length_app, length_take, Hpose, Hangles. cbn [length]. lia.
Qed.

Lemma init_shape e :
  length (hand_pose (__init__ e).1) = 3%nat /\
  length (hand_orientation (__init__ e).1) = 3%nat /\
  length (grasp_angles (__init__ e).1) = 2%nat.
Proof.
  unfold __init__, range. change (seqZ 0 2) with [0; 1]. cbn [foldl].
  repeat match goal with
  | |- context [addUserDebugParameter ?n ?a ?b ?c ?x] =>
      destruct (addUserDebugParameter n a b c x)
  | |- context [readUserDebugParameter ?i ?x] =>
      destruct (readUserDebugParameter i x)
  end.
  done.
Qed.

(** X11: a harness as [__init__] builds it, stepped on any state of the
    engine, either returns an action of exactly six readings or raises
    [AttributeError]; it never raises [IndexError]. *)
Theorem step_after_init_returns_six e e' :
  match step (__init__ e).1 e' with
  | (Returns action, _, _) => length action = 6%nat
  | (Raises x, _, _) => x = AttributeError
  end.
Proof.
  destruct (init_shape e) as (Hpose & Horient & Hgrasp).
  set (self := (__init__ e).1) in *.
  destruct (gt (readUserDebugParameter (reset_button self) e').1 (latest_reset self))
    eqn:Hgt.
  - rewrite (step_pressed _ _ Hgt).
    destruct (readUserDebugParameter (reset_button self) e') as [pressed e1].
    by destruct (readUserDebugParameter (reset_button self) e1).
  - destruct (step_quiet self e' Hgt) as (action & e'' & -> & Hlen).
    + intros Hnil. by rewrite Hnil in Horient.
    + rewrite Hlen, Hpose, Hgrasp. done.
Qed.

(** X12: a step raises [AttributeError] exactly when the reset slider reads
    above [latest_reset] (the class has no [reset] method to call): it has
    then read the slider a second time and stored that reading in
    [latest_reset].  Otherwise the step leaves the instance as it was. *)
Theorem step_raises_iff_reset_pressed self e :
  let '(pressed, e1) := readUserDebugParameter (reset_button self) e in
  let '(v, e2) := readUserDebugParameter (reset_button self) e1 in
  ((step self e).1.1 = Raises AttributeError <-> gt pressed (latest_reset self) = true) /\
  (gt pressed (latest_reset self) = true ->
   step self e = (Raises AttributeError, set_latest_reset self v, e2)) /\
  (gt pressed (latest_reset self) = false -> (step self e).1.2 = self).
Proof.
  pose proof (step_pressed self e) as Hpressed.
  unfold step in *.
  destruct (readUserDebugParameter (reset_button self) e) as [pressed e1].
  destruct (readUserDebugParameter (reset_button self) e1) as [v e2].
  cbn [fst] in Hpressed.
  destruct (gt pressed (latest_reset self)); [by conjuncts|].
  destruct (read_each (hand_pose self) e1) as [target_pose e3].
  destruct (read_each (hand_orientation self) e3) as [target_orientation e4].
  destruct (subscript target_orientation 0) as [first_orientation|[]] eqn:Hfirst.
  - destruct (grasp_angles_read_each self e4) as (angles & e5 & -> & _).
    conjuncts; [by split|done|done].
  - rewrite subscript_first in Hfirst. by destruct target_orientation.
  - conjuncts; [by split|done|done].
Qed.

(** X13: on an engine whose readings do not change its state, a step on
    which the reset slider does not read above [latest_reset] returns the
    readings of the first three pose sliders, of the first orientation
    slider and of the grasp-angle sliders, in that order; the other
    orientation sliders (pitch and yaw) are read and left out. *)
Theorem step_action_components self e (roll : Z) (others : list Z) :
  (forall id e, (readUserDebugParameter id e).2 = e) ->
  gt (readUserDebugParameter (reset_button self) e).1 (latest_reset self) = false ->
  hand_orientation self = roll :: others ->
  let reading id := (readUserDebugParameter id e).1 in
  step self e =
    (Returns (take 3 (reading <$> hand_pose self) ++ [reading roll] ++
              (reading <$> grasp_angles self)),
     self, e).
Proof.
  intros Hpassive Hquiet Horient reading.
  destruct (grasp_angles_read_each self e) as (angles & e' & Hget & Hangles & _).
  rewrite read_each_passive in Hangles by done. injection Hangles as <- <-.
  unfold step. pose proof (Hpassive (reset_button self) e) as He.
  destruct (readUserDebugParameter (reset_button self) e) as [pressed e1].
  cbn [fst snd] in Hquiet, He. subst e1. rewrite Hquiet.
  rewrite !read_each_passive by done. rewrite Horient.
  cbn [fmap list_fmap]. rewrite subscript_first, Hget. cbn [app].
  by rewrite <- app_assoc.
Qed.

(** The two ways a step can go on an instance with an orientation slider. *)
Lemma step_cases self e :
  hand_orientation self <> [] ->
  (exists v e', step self e = (Raises AttributeError, set_latest_reset self v, e')) \/
  (exists action e', step self e = (Returns action, self, e')).
Proof.
  intros Hne.
  destruct (gt (readUserDebugParameter (reset_button self) e).1 (latest_reset self))
    eqn:Hgt.
  - left. rewrite (step_pressed _ _ Hgt).
    destruct (readUserDebugParameter (reset_button self) e) as [pressed e1].
    destruct (readUserDebugParameter (reset_button self) e1) as [v e2]. eauto.
  - right. destruct (step_quiet self e Hgt Hne) as (action & e' & -> & _). eauto.
Qed.

(** X14: [simulate] never changes the instance while it loops, and on an
    instance with an orientation slider the only thing that ends it is the
    [AttributeError] of a step that found the reset slider above
    [latest_reset], which leaves that step's second reading in
    [latest_reset]. *)
Theorem simulate_ends_only_on_reset_press (fuel : nat) self e :
  hand_orientation self <> [] ->
  match simulate fuel self e with
  | (None, self', _) => self' = self
  | (Some x, self', _) => x = AttributeError /\ exists v, self' = set_latest_reset self v
  end.
Proof.
  intros Hne. revert e. induction fuel as [|fuel IH]; intros e; [done|].
  cbn [simulate].
  destruct (step_cases self e Hne) as [(v & e' & ->)|(action & e' & ->)]; [eauto|].
  apply IH.
Qed.

Lemma read_each_invariant (Q : Engine -> Prop) ids e :
  (forall id e, Q e -> Q (readUserDebugParameter id e).2) ->
  Q e -> Q (read_each ids e).2.
Proof.
  intros Hread He. induction ids as [|id ids IH] using rev_ind; [done|].
  rewrite read_each_snoc. destruct (read_each ids e) as [values e1].
  pose proof (Hread id e1 IH) as He2.
  by destruct (readUserDebugParameter id e1).
Qed.

(** A step only reads: what readings preserve of the engine, it preserves. *)
Lemma step_invariant (Q : Engine -> Prop) self e :
  (forall id e, Q e -> Q (readUserDebugParameter id e).2) ->
  Q e -> Q (step self e).2.
Proof.
  intros Hread He. unfold step.
  pose proof (Hread (reset_button self) e He) as He1.
  destruct (readUserDebugParameter (reset_button self) e) as [pressed e1].
  destruct (gt pressed (latest_reset self)).
  - pose proof (Hread (reset_button self) e1 He1) as He2.
    by destruct (readUserDebugParameter (reset_button self) e1).
  - pose proof (read_each_invariant Q (hand_pose self) e1 Hread He1) as He2.
    destruct (read_each (hand_pose self) e1) as [target_pose e2].
    pose proof (read_each_invariant Q (hand_orientation self) e2 Hread He2) as He3.
    destruct (read_each (hand_orientation self) e2) as [target_orientation e3].
    destruct (subscript target_orientation 0); [|done].
    destruct (grasp_angles_read_each self e3) as (angles & e4 & -> & Heach & _).
    pose proof (read_each_invariant Q (grasp_angles self) e3 Hread He3) as He4.
    by rewrite Heach in He4.
Qed.

(** X15: [simulate] on an instance with an orientation slider is still
    looping after any number of iterations, as long as the engine stays in
    states (kept by readings and by [stepSimulation]) in which the reset
    slider does not read above [latest_reset]. *)
Theorem simulate_loops_while_reset_is_quiet (Q : Engine -> Prop) (fuel : nat) self e :
  (forall e, Q e ->
     gt (readUserDebugParameter (reset_button self) e).1 (latest_reset self) = false) ->
  (forall id e, Q e -> Q (readUserDebugParameter id e).2) ->
  (forall e, Q e -> Q (stepSimulation e)) ->
  hand_orientation self <> [] ->
  Q e ->
  (simulate fuel self e).1.1 = None.
Proof.
  intros Hquiet Hread Hstep Hne. revert e.
  induction fuel as [|fuel IH]; intros e He; [done|].
  cbn [simulate]. pose proof (step_invariant Q self e Hread He) as He'.
  destruct (step_quiet self e (Hquiet e He) Hne) as (action & e' & Hrun & _).
  rewrite Hrun in He' |- *. apply IH, Hstep, He'.
Qed.

End SimulationFacts.

(** *** Instances on the board of sliders *)

(** X12 on [pressed_board]: the step raises and stores 3. *)
Lemma step_raises_iff_reset_pressed_witness :
  Simulation.step Simulation.sample_harness Simulation.pressed_board =
    (Raises Simulation.AttributeError,
     Simulation.set_latest_reset Simulation.sample_harness 3,
     Simulation.pressed_board).
Proof.
  pose proof (step_raises_iff_reset_pressed
                Simulation.sample_harness Simulation.pressed_board) as Hstep.
  cbn in Hstep. destruct Hstep as (_ & Hpressed & _).
  exact (Hpressed eq_refl).
Defined.

(** X13 on [quiet_board]: the sliders read 5, 6, 7 (pose), 8, 9, 10
    (orientation) and 11, 12 (grasp angles); 9 and 10 are left out. *)
Lemma step_action_components_witness :
  Simulation.step Simulation.sample_harness Simulation.quiet_board =
    (Returns [5; 6; 7; 8; 11; 12], Simulation.sample_harness, Simulation.quiet_board).
Proof.
  rewrite (step_action_components Simulation.sample_harness Simulation.quiet_board
             4 [5; 6]); [reflexivity|reflexivity|reflexivity|reflexivity].
Defined.

(** X14 on [pressed_board]. *)
Lemma simulate_ends_only_on_reset_press_witness :
  match Simulation.simulate 3 Simulation.sample_harness Simulation.pressed_board with
  | (None, self', _) => self' = Simulation.sample_harness
  | (Some x, self', _) =>
      x = Simulation.AttributeError /\
      exists v, self' = Simulation.set_latest_reset Simulation.sample_harness v
  end.
Proof.
  apply (simulate_ends_only_on_reset_press 3
           Simulation.sample_harness Simulation.pressed_board).
  discriminate.
Defined.

(** X15 on [quiet_board], the states of the engine being those in which the
    reset slider reads 1. *)
Lemma simulate_loops_while_reset_is_quiet_witness :
  (Simulation.simulate 100 Simulation.sample_harness Simulation.quiet_board).1.1 = None.
Proof.
  apply (simulate_loops_while_reset_is_quiet
           (fun board : list Z => board !! 0%nat = Some 1)).
  - intros board Hboard.
    change (Z.gtb (default 0 (board !! 0%nat)) 1 = false). by rewrite Hboard.
  - intros id board Hboard. exact Hboard.
  - intros board Hboard. exact Hboard.
  - discriminate.
  - reflexivity.
Defined.

(** * Locating the model *)

Section LoadingFacts.
Import Loading.
Context {W : Type}.
Implicit Types (q : Query) (w : W) (stdout : list string).

Ltac conjuncts := repeat match goal with |- _ /\ _ => split end.

(** X16: unless the first lookup fails with an [AssertionError] or a
    [ValueError] and the folder mentions "rl-trained-agents", the block is
    the first lookup alone: it returns its paths (and prints them) or
    re-raises its exception on the state it left, and the hub plays no part
    (the result is the same with any other download function). *)
Theorem hub_untouched_without_fallback
    (get_model_path : Query -> W -> Result Error (string * string * string) * W)
    (download_from_hub other_download : Download -> W -> Result Error unit * W)
    q w stdout :
  (forall x, (get_model_path q w).1 = Raises x -> caught x = true ->
             contains "rl-trained-agents" (folder q) = false) ->
  locate_model get_model_path download_from_hub q w stdout =
    match get_model_path q w with
    | (Returns found, w') => loading found w' stdout
    | (Raises x, w') => (Raises x, w', stdout)
    end /\
  locate_model get_model_path download_from_hub q w stdout =
    locate_model get_model_path other_download q w stdout.
Proof.
  intros Hno. unfold locate_model.
  destruct (get_model_path q w) as [[found|x] w']; [done|].
  destruct (caught x) eqn:Hcaught; [|done].
  by rewrite (Hno x eq_refl Hcaught).
Qed.

(** X17: when the block returns, the paths it returns are those of a
    successful lookup and the last line printed is "Loading " followed by
    the model path; when it raises, it has printed at most the notice of
    the download. *)
Theorem located_model_comes_from_lookup
    (get_model_path : Query -> W -> Result Error (string * string * string) * W)
    (download_from_hub : Download -> W -> Result Error unit * W)
    q w stdout :
  match locate_model get_model_path download_from_hub q w stdout with
  | (Returns (model_path, log_path), w', stdout') =>
      (exists name w0,
         get_model_path q w0 = (Returns (name, model_path, log_path), w')) /\
      last stdout' = Some ("Loading " +:+ model_path)
  | (Raises _, _, stdout') =>
      stdout' = stdout \/
      stdout' = stdout ++
        ["Pretrained model not found, trying to download it from sb3 Huggingface hub: https://huggingface.co/sb3"]
  end.
Proof.
  unfold locate_model.
  destruct (get_model_path q w) as [[[[name model_path] log_path]|x] w1] eqn:Hfirst.
  { cbn [loading]. split; [eauto|apply last_snoc]. }
  destruct (caught x); [|by left].
  destruct (contains "rl-trained-agents" (folder q)); cbn [negb]; [|by left].
  destruct (download_from_hub _ w1) as [[[]|y] w2]; [|by right].
  destruct (get_model_path q w2) as [[[[name model_path] log_path]|y] w3] eqn:Hsecond;
    [|by right].
  cbn [loading]. split; [eauto|apply last_snoc].
Qed.

End LoadingFacts.

(** * Importing the package *)

Section PackageFacts.
Import Package.
Context {Registry : Type}.
Variable strip : string -> string.
Variable gym_register : EnvSpec -> Registry -> Registry.
Implicit Types (py : @Interpreter Registry) (environ : gmap string string).

Ltac conjuncts := repeat match goal with |- _ /\ _ => split end.

Lemma register_all py (specs : list EnvSpec) :
  let py' := foldl (fun py spec => register gym_register spec py) py specs in
  version py' = version py /\
  sys_path py' = sys_path py /\
  registry py' = foldl (fun r spec => gym_register spec r) (registry py) specs.
Proof.
  revert py. induction specs as [|spec specs IH]; intros py; [done|].
  cbn [foldl]. destruct (IH (register gym_register spec py)) as (-> & -> & ->). done.
Qed.

(** X18: without the environment variable TEKKEN_PATH the import of the
    package fails, with nothing appended to [sys.path] and nothing
    registered: with [KeyError], after [__version__] was set, when
    [version.txt] is there, and with [FileNotFoundError] when it is not. *)
Theorem import_fails_without_tekken_path (version_txt : option string) environ py :
  environ !! "TEKKEN_PATH" = None ->
  let '(res, py') := import_package strip gym_register version_txt environ py in
  sys_path py' = sys_path py /\
  registry py' = registry py /\
  match version_txt with
  | Some content =>
      res = Raises (KeyError "TEKKEN_PATH") /\ version py' = Some (strip content)
  | None => res = Raises FileNotFoundError /\ version py' = version py
  end.
Proof.
  intros Hunset. unfold import_package. destruct version_txt as [content|]; [|done].
  by rewrite Hunset.
Qed.

(** X19: with [version.txt] there and TEKKEN_PATH set, the import completes:
    [__version__] is the stripped content of the file, [sys.path] has one
    more entry, the last, which is TEKKEN_PATH followed by "/src", and the
    gym registry has received eleven registrations, of eleven different
    ids, each with [max_episode_steps] 5000. *)
Theorem import_registers_eleven_envs (content tekken_path : string) environ py :
  environ !! "TEKKEN_PATH" = Some tekken_path ->
  exists py',
    import_package strip gym_register (Some content) environ py = (Returns tt, py') /\
    version py' = Some (strip content) /\
    sys_path py' = sys_path py ++ [tekken_path +:+ "/src"] /\
    registry py' = foldl (fun r spec => gym_register spec r) (registry py) registrations /\
    length registrations = 11%nat /\
    NoDup (id <$> registrations) /\
    Forall (fun spec => max_episode_steps spec = 5000) registrations.
Proof.
  intros Hset. unfold import_package. rewrite Hset. eexists. split; [done|].
  match goal with |- context [foldl _ ?py0 registrations] =>
    destruct (register_all py0 registrations) as (-> & -> & ->)
  end.
  conjuncts; [done|done|done|done| |].
  - apply (bool_decide_unpack _). vm_compute. exact I.
  - apply (bool_decide_unpack _). vm_compute. exact I.
Qed.

End PackageFacts.

(** *** Instances *)

(** X16 on a disk without the folder "logs": the [ValueError] of the lookup
    is re-raised and nothing is printed. *)
Lemma hub_untouched_without_fallback_witness :
  Loading.locate_model Loading.sample_lookup Loading.sample_download
    (Loading.sample_query "logs") [] [] =
  (Raises Loading.ValueError, [], []).
Proof.
  rewrite (proj1 (hub_untouched_without_fallback Loading.sample_lookup
                    Loading.sample_download Loading.sample_download
                    (Loading.sample_query "logs") [] [] (fun _ _ _ => eq_refl))).
  reflexivity.
Defined.

(** X17 on a disk without the folder "rl-trained-agents": the model is
    downloaded and the second lookup finds it. *)
Lemma located_model_comes_from_lookup_witness :
  Loading.locate_model Loading.sample_lookup Loading.sample_download
    (Loading.sample_query "rl-trained-agents") [] [] =
  (Returns ("rl-trained-agents/model.zip", "rl-trained-agents"),
   ["rl-trained-agents"],
   ["Pretrained model not found, trying to download it from sb3 Huggingface hub: https://huggingface.co/sb3";
    "Loading rl-trained-agents/model.zip"]) /\
  exists name w0,
    Loading.sample_lookup (Loading.sample_query "rl-trained-agents") w0 =
      (Returns (name, "rl-trained-agents/model.zip", "rl-trained-agents"),
       ["rl-trained-agents"]).
Proof.
  pose proof (located_model_comes_from_lookup Loading.sample_lookup
                Loading.sample_download
                (Loading.sample_query "rl-trained-agents") [] []) as Hlocated.
  assert (Loading.locate_model Loading.sample_lookup Loading.sample_download
            (Loading.sample_query "rl-trained-agents") [] [] =
          (Returns ("rl-trained-agents/model.zip", "rl-trained-agents"),
           ["rl-trained-agents"],
           ["Pretrained model not found, trying to download it from sb3 Huggingface hub: https://huggingface.co/sb3";
            "Loading rl-trained-agents/model.zip"])) as Hrun
    by (vm_compute; reflexivity).
  rewrite Hrun in Hlocated. split; [exact Hrun|exact (proj1 Hlocated)].
Defined.

(** X18 with an empty environment. *)
Lemma import_fails_without_tekken_path_witness :
  (Package.import_package (fun s => s) Package.sample_register
     (Some "2.0.0") ∅ Package.sample_interpreter).1 =
    Raises (Package.KeyError "TEKKEN_PATH").
Proof.
  pose proof (import_fails_without_tekken_path (fun s => s) Package.sample_register
                (Some "2.0.0") ∅ Package.sample_interpreter eq_refl) as Himport.
  destruct (Package.import_package _ _ _ _ _) as [res py'].
  exact (proj1 (proj2 (proj2 Himport))).
Defined.

(** X19 with TEKKEN_PATH set to "/opt/tekken". *)
Lemma import_registers_eleven_envs_witness :
  exists py',
    Package.import_package (fun s => s) Package.sample_register (Some "2.0.0")
      {["TEKKEN_PATH" := "/opt/tekken"]} Package.sample_interpreter =
      (Returns tt, py') /\
    Package.sys_path py' = ["/usr/lib/python3"; "/opt/tekken/src"].
Proof.
  destruct (import_registers_eleven_envs (fun s => s) Package.sample_register
              "2.0.0" "/opt/tekken" {["TEKKEN_PATH" := "/opt/tekken"]}
              Package.sample_interpreter)
    as (py' & Hrun & _ & Hpath & _); [reflexivity|].
  exists py'. split; [exact Hrun|exact Hpath].
Defined.

(** * The keyword arguments of the environment *)


